(** * The Taxi environment (gym/envs/toy_text/taxi.py)

    A shallow embedding of [TaxiEnv]: the state encoding, its inverse, the
    choice of map and locations by the module-level location count [nL],
    the construction of the transition table [P] and of the initial
    state distribution [isd] in [TaxiEnv.__init__], and [render], with
    [utils.colorize] as a parameter.

    Python integers are [Z]; [%] and [//] are [Z.modulo] and [Z.div] (both
    round towards minus infinity, as Python does).  The float [1.0] and the
    entries of [isd] are exact rationals ([Q]): rounding of the final
    division is not modelled.  Exceptions are values of [exn] carried by
    [result]; [assert] statements are taken to be enabled. *)

From Stdlib Require Import ZArith QArith Lia Ascii String.
From stdpp Require Import base option list gmap strings.

Local Open Scope Z_scope.

(** ** Exceptions *)

(** The exceptions the interpreter can throw in this module, and [Raised]
    for an explicit [raise] statement (class name and message). *)
Inductive exn : Type :=
| UnboundLocalError (name : string)
| AssertionError
| IndexError
| KeyError (key : Z)
| ValueError
| ZeroDivisionError
| Raised (cls msg : string).

Inductive result (A : Type) : Type :=
| Ok (a : A)
| Raise (e : exn).
Arguments Ok {A} a.
Arguments Raise {A} e.

#[global] Instance result_ret : MRet result := fun _ a => Ok a.
#[global] Instance result_bind : MBind result := fun _ _ f m =>
  match m with
  | Ok a => f a
  | Raise e => Raise e
  end.

(** A [for] loop over a list whose body may throw. *)
Fixpoint for_each {S A : Type} (body : S -> A -> result S) (xs : list A) (st : S)
  : result S :=
  match xs with
  | [] => Ok st
  | x :: xs' =>
      match body st x with
      | Ok st' => for_each body xs' st'
      | Raise e => Raise e
      end
  end.

(** [range(n)] *)
Definition range (n : Z) : list Z := seqZ 0 n.

(** Python and numpy indexing of a sequence of length [len]: a negative
    index counts from the end, anything else out of range throws. *)
Definition py_index (len i : Z) : result nat :=
  if (0 <=? i) && (i <? len) then Ok (Z.to_nat i)
  else if (- len <=? i) && (i <? 0) then Ok (Z.to_nat (i + len))
  else Raise IndexError.

Definition getitem {A : Type} (l : list A) (i : Z) : result A :=
  k ← py_index (Z.of_nat (length l)) i;
  match l !! k with
  | Some x => Ok x
  | None => Raise IndexError
  end.

(** ** State encoding *)

Section Encoding.
(** The module-level [nL = int(os.environ["NUM_STOPS"])]. *)
Variable nL : Z.

Definition encode (taxirow taxicol passloc destidx : Z) : Z :=
  let i := taxirow in
  let i := i * 5 in
  let i := i + taxicol in
  let i := i * 5 in
  let i := i + passloc in
  let i := i * nL in
  let i := i + destidx in
  i.

(** [decode] returns [reversed(out)], which its caller unpacks into four
    values; it is modelled as the 4-tuple (row, col, passenger, destination). *)
Definition decode (i : Z) : result (Z * Z * Z * Z) :=
  if nL =? 0 then Raise ZeroDivisionError
  else
    let o0 := i mod nL in
    let i := i / nL in
    let o1 := i mod 5 in
    let i := i / 5 in
    let o2 := i mod 5 in
    let i := i / 5 in
    let o3 := i in
    if (0 <=? i) && (i <? 5) then Ok (o3, o2, o1, o0)
    else Raise AssertionError.
End Encoding.

(** ** Number of states *)

Definition nR : Z := 5.
Definition nC : Z := 5.
Definition nA : Z := 6.
Definition maxR : Z := nR - 1.
Definition maxC : Z := nC - 1.

Definition nS (nL : Z) : Z :=
  if nL =? 2 then nR * nC * nL * (nL + 1) * 2
  else nR * nC * nL * (nL + 1).

(** ** Map and locations *)

Abbreviation loc := (Z * Z)%type.

Definition loc_eqb (x y : loc) : bool :=
  (x.1 =? y.1) && (x.2 =? y.2).

(** The [if nL == ... elif ...] chain at the head of [__init__]: the map
    template and the list of locations it binds, or [None] when no branch
    is taken and both [MAP] and [self.locs] stay unbound. *)
Definition layout (nL : Z) : option (list string * list loc) :=
  if nL =? 2 then
    Some ([ "+---------+";
            "|A: | : : |";
            "| : : : : |";
            "| : : : : |";
            "| | : | : |";
            "| | : |B: |";
            "+---------+" ]%string,
          [(0,0); (4,3)])
  else if nL =? 4 then
    Some ([ "+---------+";
            "|A: | : :B|";
            "| : : : : |";
            "| : : : : |";
            "| | : | : |";
            "|C| : |D: |";
            "+---------+" ]%string,
          [(0,0); (0,4); (4,0); (4,3)])
  else if nL =? 5 then
    Some ([ "+---------+";
            "|A: | : :B|";
            "| : : : : |";
            "| : : : :C|";
            "| | : | : |";
            "|D| : |E: |";
            "+---------+" ]%string,
          [(0,0); (0,4); (2,4); (4,0); (4,3)])
  else if nL =? 6 then
    Some ([ "+---------+";
            "|A: | : :B|";
            "| : : : : |";
            "| :C:D: : |";
            "| | : | : |";
            "|E| : |F: |";
            "+---------+" ]%string,
          [(0,0); (0,4); (2,1); (2,2); (4,0); (4,3)])
  else if nL =? 8 then
    Some ([ "+---------+";
            "|A: |B: :C|";
            "| :D: : : |";
            "| : : :E:F|";
            "| | : | : |";
            "|G| : |H: |";
            "+---------+" ]%string,
          [(0,0); (0,2); (1,1); (2,3); (2,4); (0,4); (4,0); (4,3)])
  else None.

(** [self.desc = np.asarray(MAP, dtype='c')]: a 7 x 11 array of characters,
    kept as the list of its rows.  [desc_at desc r c] is [desc[r, c]]. *)
Definition desc_at (desc : list string) (r c : Z) : result ascii :=
  line ← getitem desc r;
  getitem (list_ascii_of_string line) c.

Definition is_colon (ch : ascii) : bool := Ascii.eqb ch ":"%char.

(** [taxiloc in locs] and [locs.index(taxiloc)] *)
Definition loc_in (x : loc) (locs : list loc) : bool := existsb (loc_eqb x) locs.

Fixpoint loc_index_from (k : Z) (x : loc) (locs : list loc) : result Z :=
  match locs with
  | [] => Raise ValueError
  | y :: locs' => if loc_eqb x y then Ok k else loc_index_from (k + 1) x locs'
  end.

Definition loc_index (x : loc) (locs : list loc) : result Z := loc_index_from 0 x locs.

(** ** One step of the table builder *)

(** An entry [(1.0, newstate, reward, done)] of the table. *)
Definition entry : Type := Q * Z * Z * bool.

(** What the body of [for a in range(nA)] leaves in [newrow], [newcol],
    [newpassidx], [reward] and [done]. *)
Record outcome : Type := Outcome {
  newrow : Z;
  newcol : Z;
  newpassidx : Z;
  reward : Z;
  done : bool
}.

Section Step.
Variable nL : Z.
Variable desc : list string.
Variable locs : list loc.

Definition move (row col passidx destidx a : Z) : result outcome :=
  let taxiloc : loc := (row, col) in
  (* if a==0 ... elif a==1 ... *)
  let nrow :=
    if a =? 0 then Z.min (row + 1) maxR
    else if a =? 1 then Z.max (row - 1) 0
    else row in
  (* if a==2 and self.desc[1+row,2*col+2]==b":" *)
  east ← (if a =? 2 then ch ← desc_at desc (1 + row) (2 * col + 2); mret (is_colon ch)
          else mret false);
  if east : bool then
    mret (Outcome nrow (Z.min (col + 1) maxC) passidx (-1) false)
  else
    (* elif a==3 and self.desc[1+row,2*col]==b":" *)
    west ← (if a =? 3 then ch ← desc_at desc (1 + row) (2 * col); mret (is_colon ch)
            else mret false);
    if west : bool then
      mret (Outcome nrow (Z.max (col - 1) 0) passidx (-1) false)
    else if a =? 4 then
      (* if (passidx < nL and taxiloc == locs[passidx]) *)
      here ← (if passidx <? nL then l ← getitem locs passidx; mret (loc_eqb taxiloc l)
              else mret false);
      if here : bool then mret (Outcome nrow col nL (-1) false)
      else mret (Outcome nrow col passidx (-10) false)
    else if a =? 5 then
      (* if (taxiloc == locs[destidx]) and passidx==nL *)
      d ← getitem locs destidx;
      if loc_eqb taxiloc d && (passidx =? nL) then
        mret (Outcome nrow col passidx 20 true)
      else if loc_in taxiloc locs && (passidx =? nL) then
        k ← loc_index taxiloc locs;
        mret (Outcome nrow col k (-1) false)
      else mret (Outcome nrow col passidx (-10) false)
    else mret (Outcome nrow col passidx (-1) false).

(** The tuple appended to [P[state][a]]. *)
Definition entry_of (destidx : Z) (o : outcome) : entry :=
  (1%Q, encode nL (newrow o) (newcol o) (newpassidx o) destidx, reward o, done o).

(** [P[state][a].append(e)] on the dictionary of dictionaries. *)
Definition table_append (P : gmap Z (gmap Z (list entry))) (state a : Z) (e : entry)
  : result (gmap Z (gmap Z (list entry))) :=
  match P !! state with
  | None => Raise (KeyError state)
  | Some row =>
      match row !! a with
      | None => Raise (KeyError a)
      | Some l => Ok (<[state := <[a := l ++ [e]]> row]> P)
      end
  end.

(** [isd[state] += 1] on the numpy array. *)
Definition array_incr (isd : list Q) (state : Z) : result (list Q) :=
  k ← py_index (Z.of_nat (length isd)) state;
  match isd !! k with
  | Some x => Ok (<[k := (x + 1)%Q]> isd)
  | None => Raise IndexError
  end.

(** The body of the innermost [for destidx] loop. *)
Definition visit (st : list Q * gmap Z (gmap Z (list entry)))
    (row col passidx destidx : Z)
  : result (list Q * gmap Z (gmap Z (list entry))) :=
  let '(isd, P) := st in
  let state := encode nL row col passidx destidx in
  isd ← (if (passidx <? nL) && negb (passidx =? destidx) then array_incr isd state
         else mret isd);
  P ← for_each (fun P a =>
                  o ← move row col passidx destidx a;
                  table_append P state a (entry_of destidx o))
               (range nA) P;
  mret (isd, P).

(** The four nested loops. *)
Definition fill (st : list Q * gmap Z (gmap Z (list entry)))
  : result (list Q * gmap Z (gmap Z (list entry))) :=
  for_each (fun st row =>
    for_each (fun st col =>
      for_each (fun st passidx =>
        for_each (fun st destidx => visit st row col passidx destidx)
                 (range nL) st)
               (range (nL + 1)) st)
             (range 5) st)
           (range 5) st.
End Step.

(** ** The constructor *)

(** What [__init__] hands to [discrete.DiscreteEnv.__init__], with the two
    attributes it sets itself. *)
Record TaxiEnv : Type := {
  env_locs : list loc;
  env_desc : list string;
  env_nS : Z;
  env_nA : Z;
  env_P : gmap Z (gmap Z (list entry));
  env_isd : list Q
}.

Definition Qsum (l : list Q) : Q := foldr Qplus 0%Q l.

(** [ {s : {a : [] for a in range(nA)} for s in range(nS)} ] *)
Definition empty_table (n : Z) : gmap Z (gmap Z (list entry)) :=
  list_to_map ((fun s => (s, list_to_map ((fun a => (a, [])) <$> range nA))) <$> range n).

(** The counts accumulated in [isd] before [isd /= isd.sum()], with the
    table. *)
Definition tabulate (nL : Z)
  : result (list loc * list string * list Q * gmap Z (gmap Z (list entry))) :=
  match layout nL with
  | None => Raise (UnboundLocalError "MAP")
  | Some (MAP, locs) =>
      let desc := MAP in
      let isd := replicate (Z.to_nat (nS nL)) 0%Q in
      let P := empty_table (nS nL) in
      '(isd, P) ← fill nL desc locs (isd, P);
      mret (locs, desc, isd, P)
  end.

(** [TaxiEnv.__init__].  For every [nL] that reaches the final division
    the sum of [isd] is positive; [Qred] only picks the reduced fraction
    that stands for the quotient. *)
Definition init (nL : Z) : result TaxiEnv :=
  '(locs, desc, isd, P) ← tabulate nL;
  let total := Qsum isd in
  let isd := (fun x => Qred (x / total)) <$> isd in
  mret {| env_locs := locs; env_desc := desc; env_nS := nS nL; env_nA := nA;
          env_P := P; env_isd := isd |}.

(** [P[s][a]] *)
Definition table_get (P : gmap Z (gmap Z (list entry))) (s a : Z) : option (list entry) :=
  row ← P !! s; row !! a.


(** The location counts that select a map. *)
Definition supported (nL : Z) : Prop := nL ∈ [2; 4; 5; 6; 8].

(** The tuples the four loops enumerate. *)
Definition valid_tuple (nL row col passidx destidx : Z) : Prop :=
  0 <= row <= 4 /\ 0 <= col <= 4 /\ 0 <= passidx <= nL /\ 0 <= destidx <= nL - 1.

(** ** Tests evaluated on a constructed environment *)

Definition Q_eqb (x y : Q) : bool :=
  (Qnum x =? Qnum y) && (Qden x =? Qden y)%positive.

Definition entry_eqb (x y : entry) : bool :=
  let '(p1, s1, r1, d1) := x in
  let '(p2, s2, r2, d2) := y in
  (Qnum p1 =? Qnum p2) && (Qden p1 =? Qden p2)%positive
  && (s1 =? s2) && (r1 =? r2) && Bool.eqb d1 d2.

(** A test on every [P[s][a]] with [s] in [range(nS)] and [a] in [range(nA)]. *)
Definition table_all (env : TaxiEnv) (f : Z -> Z -> list entry -> bool) : bool :=
  forallb (fun s =>
    forallb (fun a =>
      match table_get (env_P env) s a with
      | Some l => f s a l
      | None => false
      end) (range nA)) (range (env_nS env)).

(** A test on every tuple the four loops visit. *)
Definition tuples_all (nL : Z) (f : Z -> Z -> Z -> Z -> bool) : bool :=
  forallb (fun row =>
    forallb (fun col =>
      forallb (fun passidx =>
        forallb (fun destidx => f row col passidx destidx) (range nL))
        (range (nL + 1))) (range 5)) (range 5).

(** A test on the environment [init nL] returns; it fails if [init] throws. *)
Definition init_check (nL : Z) (chk : TaxiEnv -> bool) : bool :=
  match init nL with
  | Ok env => chk env
  | Raise _ => false
  end.

(** The tuple's entry for each action is in the list at its index. *)
Definition records_tuple (nL : Z) (env : TaxiEnv) (row col passidx destidx : Z) : bool :=
  forallb (fun a =>
    match move nL (env_desc env) (env_locs env) row col passidx destidx a with
    | Ok o =>
        match table_get (env_P env) (encode nL row col passidx destidx) a with
        | Some l => existsb (entry_eqb (entry_of nL destidx o)) l
        | None => false
        end
    | Raise _ => false
    end) (range nA).

(** Every entry has probability 1 and a successor with the destination of
    its index. *)
Definition entries_sound (nL : Z) (s a : Z) (l : list entry) : bool :=
  forallb (fun e : entry =>
    let '(p, ns, _, _) := e in
    (Qnum p =? 1) && (Qden p =? 1)%positive && (ns mod nL =? s mod nL)) l.

Definition table_sound (nL : Z) (env : TaxiEnv) : bool :=
  tuples_all nL (records_tuple nL env) && table_all env (entries_sound nL).







(** The states in which the passenger waits away from the destination,
    read off the decoded index. *)
Definition waitingb (nL s : Z) : bool :=
  match decode nL s with
  | Ok (_, _, p, d) => (p <? nL) && negb (p =? d)
  | Raise _ => false
  end.

(** [isd] sums to 1 and gives the same mass to each waiting state and none
    to the others. *)
Definition isd_uniform_ok (nL : Z) (env : TaxiEnv) : bool :=
  Q_eqb (Qred (Qsum (env_isd env))) 1%Q
  && forallb (fun s =>
       match env_isd env !! Z.to_nat s with
       | Some x => Q_eqb x (if waitingb nL s
                            then (1 # Z.to_pos (25 * nL * (nL - 1)))%Q else 0%Q)
       | None => false
       end) (range (env_nS env)).

(** ** Further tests on the maps and on a constructed environment *)

(** The tuples in the order the four loops visit them. *)
Definition all_tuples (nL : Z) : list (Z * Z * Z * Z) :=
  row ← range 5; col ← range 5; passidx ← range (nL + 1); destidx ← range nL;
  [(row, col, passidx, destidx)].

(** The body of the innermost loop on a visited tuple. *)
Definition visit_tuple (nL : Z) (desc : list string) (locs : list loc)
    (st : list Q * gmap Z (gmap Z (list entry))) (t : Z * Z * Z * Z)
  : result (list Q * gmap Z (gmap Z (list entry))) :=
  let '(row, col, passidx, destidx) := t in
  visit nL desc locs st row col passidx destidx.

(** The number of tuples among [ts], with the passenger waiting away from
    the destination, whose encoding is [s]: those [isd[state] += 1] counts
    at index [s]. *)
Definition waiting_in (nL s : Z) (ts : list (Z * Z * Z * Z)) : Z :=
  Z.of_nat (length (List.filter
    (fun t : Z * Z * Z * Z =>
       let '(row, col, passidx, destidx) := t in
       (passidx <? nL) && negb (passidx =? destidx)
       && (encode nL row col passidx destidx =? s))
    ts)).

Definition waiting_count (nL s : Z) : Z := waiting_in nL s (all_tuples nL).

(** The number of tuples among [ts] with the passenger waiting away from
    the destination. *)
Definition waiting_total (nL : Z) (ts : list (Z * Z * Z * Z)) : Z :=
  Z.of_nat (length (List.filter
    (fun t : Z * Z * Z * Z =>
       let '(row, col, passidx, destidx) := t in
       (passidx <? nL) && negb (passidx =? destidx))
    ts)).

(** A capital letter, which names a location on the map. *)
Definition is_letter (ch : ascii) : bool :=
  let n := Z.of_nat (nat_of_ascii ch) in (65 <=? n) && (n <=? 90).

(** The map is 7 rows of 11 characters and carries a letter exactly at the
    cells of the locations, which lie inside the grid. *)
Definition layout_ok (desc : list string) (locs : list loc) : bool :=
  (Z.of_nat (length desc) =? 7)
  && forallb (fun line => Z.of_nat (String.length line) =? 11) desc
  && forallb (fun l : loc => (0 <=? l.1) && (l.1 <=? 4) && (0 <=? l.2) && (l.2 <=? 4)) locs
  && forallb (fun r =>
       forallb (fun c =>
         match desc_at desc (1 + r) (2 * c + 1) with
         | Ok ch => Bool.eqb (is_letter ch) (loc_in (r, c) locs)
         | Raise _ => false
         end) (range 5)) (range 5).

(** ** Rendering *)

(** The stream [render] writes to: [sys.stdout], or a fresh [StringIO]. *)
Inductive stream : Type := Stdout | StringIO.

(** The newline character. *)
Definition nl : string := String "010"%char EmptyString.

(** [l[i] = v] on a Python list. *)
Definition setitem {A : Type} (l : list A) (i : Z) (v : A) : result (list A) :=
  k ← py_index (Z.of_nat (length l)) i;
  Ok (<[k := v]> l).

(** [out[r][c]] and [out[r][c] = v] on the list of the rows; the row is
    fetched first and then updated in place. *)
Definition cell_get (out : list (list string)) (r c : Z) : result string :=
  line ← getitem out r;
  getitem line c.

Definition cell_set (out : list (list string)) (r c : Z) (v : string)
  : result (list (list string)) :=
  line ← getitem out r;
  line' ← setitem line c v;
  setitem out r line'.

(** [def ul(x): return "_" if x == " " else x] *)
Definition ul (x : string) : string :=
  if String.eqb x " " then "_"%string else x.

(** [[c.decode('utf-8') for c in line] for line in self.desc.copy().tolist()]:
    every character of the map as a string of its own. *)
Definition cells (desc : list string) : list (list string) :=
  map (fun line => map (fun ch => String ch EmptyString) (list_ascii_of_string line)) desc.

Definition action_names : list string :=
  [ "South"; "North"; "East"; "West"; "Pickup"; "Dropoff" ]%string.

(** What a call of [render] leaves behind: the stream it chose, all it
    wrote to it, and what it returned or threw. *)
Record rendering : Type := Rendering {
  outfile : stream;
  written : string;
  returned : result (option stream)
}.

Section Render.
(** [utils.colorize(string, color, bold, highlight)], from outside this
    file. *)
Variable colorize : string -> string -> bool -> bool -> string.
Variable nL : Z.
Variable desc : list string.
Variable locs : list loc.

(** The grid [out] as [render] has it just before writing, for [self.s = s]. *)
Definition paint (s : Z) : result (list (list string)) :=
  let out := cells desc in
  '(taxirow, taxicol, passidx, destidx) ← decode nL s;
  out ← (if passidx <? nL then
           x ← cell_get out (1 + taxirow) (2 * taxicol + 1);
           out ← cell_set out (1 + taxirow) (2 * taxicol + 1)
                          (colorize x "yellow" false true);
           '(pi, pj) ← getitem locs passidx;
           y ← cell_get out (1 + pi) (2 * pj + 1);
           cell_set out (1 + pi) (2 * pj + 1) (colorize y "blue" true false)
         else
           x ← cell_get out (1 + taxirow) (2 * taxicol + 1);
           cell_set out (1 + taxirow) (2 * taxicol + 1)
                    (colorize (ul x) "green" false true));
  '(di, dj) ← getitem locs destidx;
  z ← cell_get out (1 + di) (2 * dj + 1);
  cell_set out (1 + di) (2 * dj + 1) (colorize z "magenta" false false).

(** [render(mode)] with [self.s = s] and [self.lastaction = lastaction]. *)
Definition render (mode : string) (s : Z) (lastaction : option Z) : rendering :=
  let outfile := if String.eqb mode "ansi" then StringIO else Stdout in
  let ret := if String.eqb mode "human" then None else Some outfile in
  match paint s with
  | Raise e => Rendering outfile "" (Raise e)
  | Ok out =>
      let text := (String.concat nl (map (String.concat "") out) ++ nl)%string in
      match lastaction with
      | Some a =>
          match getitem action_names a with
          | Ok name =>
              Rendering outfile (text ++ "  (" ++ name ++ ")" ++ nl)%string (Ok ret)
          | Raise e => Rendering outfile text (Raise e)
          end
      | None => Rendering outfile (text ++ nl)%string (Ok ret)
      end
  end.

(** [paint] throws nothing on the indices [decode] accepts. *)
Definition paint_ok : bool :=
  forallb (fun s => match paint s with Ok _ => true | Raise _ => false end)
          (range (125 * nL)).
End Render.

(** The cell at row [r], column [c] of a grid, if there is one. *)
Definition grid_lookup (out : list (list string)) (r c : nat) : option string :=
  line ← out !! r; line !! c.

(** ** The table as a comprehension *)

(** The visited tuples whose encoding is [s], in the order of the visits. *)
Definition tuples_at (nL s : Z) : list (Z * Z * Z * Z) :=
  List.filter (fun t : Z * Z * Z * Z =>
                 let '(row, col, passidx, destidx) := t in
                 encode nL row col passidx destidx =? s)
              (all_tuples nL).

(** The entries the loop body computes for action [a] on each of the
    tuples [ts]. *)
Definition entries_of (nL : Z) (desc : list string) (locs : list loc) (a : Z)
    (ts : list (Z * Z * Z * Z)) : list entry :=
  flat_map (fun t : Z * Z * Z * Z =>
              let '(row, col, passidx, destidx) := t in
              match move nL desc locs row col passidx destidx a with
              | Ok o => [entry_of nL destidx o]
              | Raise _ => []
              end) ts.

(** The entries the loops append to [P[s][a]]. *)
Definition entries_at (nL : Z) (desc : list string) (locs : list loc) (s a : Z)
  : list entry :=
  entries_of nL desc locs a (tuples_at nL s).

(** The list at a tuple's index holds the tuple's entry and nothing else. *)
Definition tuple_alone (nL : Z) (env : TaxiEnv) (row col passidx destidx : Z) : bool :=
  forallb (fun a =>
    match move nL (env_desc env) (env_locs env) row col passidx destidx a,
          table_get (env_P env) (encode nL row col passidx destidx) a with
    | Ok o, Some [e] => entry_eqb e (entry_of nL destidx o)
    | _, _ => false
    end) (range nA).

(** ** Exact lookups in the table *)

Fixpoint entries_eqb (l1 l2 : list entry) : bool :=
  match l1, l2 with
  | [], [] => true
  | x :: l1', y :: l2' => entry_eqb x y && entries_eqb l1' l2'
  | _, _ => false
  end.

(** [P[s][a]] is the list [l]. *)
Definition table_is (env : TaxiEnv) (s a : Z) (l : list entry) : bool :=
  match table_get (env_P env) s a with
  | Some l' => entries_eqb l' l
  | None => false
  end.

(** The list at a tuple's index holds the tuple's entry and nothing else,
    and [decode] reads the recorded successor as the new tuple. *)
Definition tuple_exact (nL : Z) (env : TaxiEnv) (row col passidx destidx : Z) : bool :=
  forallb (fun a =>
    match move nL (env_desc env) (env_locs env) row col passidx destidx a,
          table_get (env_P env) (encode nL row col passidx destidx) a with
    | Ok o, Some [e] =>
        entry_eqb e (entry_of nL destidx o)
        && match decode nL (encode nL (newrow o) (newcol o) (newpassidx o) destidx) with
           | Ok (r, c, p, d) =>
               (r =? newrow o) && (c =? newcol o) && (p =? newpassidx o) && (d =? destidx)
           | Raise _ => false
           end
    | _, _ => false
    end) (range nA).

(** * Properties *)

(** ** Arithmetic of the encoding *)

Lemma supported_cases nL :
  supported nL <-> nL = 2 \/ nL = 4 \/ nL = 5 \/ nL = 6 \/ nL = 8.
Proof.
  unfold supported. rewrite !elem_of_cons, elem_of_nil. tauto.
Qed.

Lemma layout_supported nL : is_Some (layout nL) <-> supported nL.
Proof.
  rewrite supported_cases. unfold layout. split.
  - intros [x Hx]. repeat case_match; try discriminate; lia.
  - intros [->|[->|[->|[->| ->]]]]; simpl; eauto.
Qed.

Lemma encode_eq nL r c p d : encode nL r c p d = ((r * 5 + c) * 5 + p) * nL + d.
Proof. reflexivity. Qed.

(** Dividing an encoded index by [nL] strips the destination. *)
Lemma encode_divmod nL x d :
  0 <= d < nL -> (x * nL + d) mod nL = d /\ (x * nL + d) / nL = x.
Proof.
  intros Hd. split.
  - rewrite Z.add_comm, Z_mod_plus_full. apply Z.mod_small; lia.
  - rewrite Z.add_comm, Z_div_plus_full by lia. rewrite Z.div_small by lia. lia.
Qed.

(** [decode] undoes [encode] as long as the passenger index fits the
    hard-wired radix 5. *)
Lemma decode_encode_radix5 nL r c p d :
  0 <= r < 5 -> 0 <= c < 5 -> 0 <= p < 5 -> 0 <= d < nL ->
  decode nL (encode nL r c p d) = Ok (r, c, p, d).
Proof.
  intros Hr Hc Hp Hd. unfold decode. rewrite encode_eq.
  destruct (Z.eqb_spec nL 0) as [->|Hn]; [lia|].
  destruct (encode_divmod nL ((r * 5 + c) * 5 + p) d Hd) as [-> ->].
  destruct (encode_divmod 5 (r * 5 + c) p Hp) as [-> ->].
  destruct (encode_divmod 5 r c Hc) as [-> ->].
  replace ((0 <=? r) && (r <? 5)) with true; [reflexivity|].
  symmetry. apply andb_true_iff. split; [apply Z.leb_le | apply Z.ltb_lt]; lia.
Qed.

(** [decode] returns exactly on the indices below [125 * nL]. *)
Lemma div_between a b lo hi :
  0 < b -> lo <= a / b < hi <-> lo * b <= a < hi * b.
Proof.
  intros Hb. pose proof (Z.div_mod a b ltac:(lia)) as E.
  pose proof (Z.mod_pos_bound a b Hb) as R. nia.
Qed.

Lemma decode_Ok_iff nL i :
  0 < nL -> (exists t, decode nL i = Ok t) <-> 0 <= i < 125 * nL.
Proof.
  intros Hn. unfold decode.
  destruct (Z.eqb_spec nL 0) as [->|_]; [lia|].
  assert (Hq : 0 <= i / nL / 5 / 5 < 5 <-> 0 <= i < 125 * nL).
  { rewrite (div_between _ 5), (div_between _ 5), (div_between _ nL) by lia. lia. }
  destruct ((0 <=? i / nL / 5 / 5) && (i / nL / 5 / 5 <? 5)) eqn:Hb.
  - apply andb_true_iff in Hb as [H1%Z.leb_le H2%Z.ltb_lt].
    split; [intros _; apply Hq; lia | intros _; eexists; reflexivity].
  - split; [intros [t Ht]; discriminate|].
    intros H%Hq. apply andb_false_iff in Hb as [Hb%Z.leb_gt|Hb%Z.ltb_ge]; lia.
Qed.

(** Whatever [decode] returns has its row in [0,4] and its other fields
    within their radices. *)
Lemma decode_Ok_range nL i r c p d :
  0 < nL -> decode nL i = Ok (r, c, p, d) ->
  0 <= r < 5 /\ 0 <= c < 5 /\ 0 <= p < 5 /\ 0 <= d < nL /\ encode nL r c p d = i.
Proof.
  intros Hn. unfold decode.
  destruct (Z.eqb_spec nL 0) as [->|_]; [lia|].
  destruct ((0 <=? i / nL / 5 / 5) && (i / nL / 5 / 5 <? 5)) eqn:Hb; [|discriminate].
  apply andb_true_iff in Hb as [H1%Z.leb_le H2%Z.ltb_lt].
  intros [= <- <- <- <-]. rewrite encode_eq.
  pose proof (Z.mod_pos_bound i nL Hn).
  pose proof (Z.mod_pos_bound (i / nL) 5 eq_refl).
  pose proof (Z.mod_pos_bound (i / nL / 5) 5 eq_refl).
  repeat split; try lia.
  pose proof (Z.div_mod i nL ltac:(lia)) as E1.
  pose proof (Z.div_mod (i / nL) 5 ltac:(lia)) as E2.
  pose proof (Z.div_mod (i / nL / 5) 5 ltac:(lia)) as E3.
  set (q1 := i / nL) in *. set (q2 := q1 / 5) in *. set (q3 := q2 / 5) in *.
  rewrite E1 at 2. rewrite E2 at 2. rewrite E3 at 2. ring.
Qed.

(** ** Sequences and locations *)

Lemma elem_of_range n x : x ∈ range n <-> 0 <= x < n.
Proof. unfold range. rewrite elem_of_seqZ. lia. Qed.

Lemma forallb_range (f : Z -> bool) n :
  forallb f (range n) = true -> forall x, 0 <= x < n -> f x = true.
Proof.
  intros H x Hx. rewrite forallb_forall in H. apply H.
  apply list_elem_of_In, elem_of_range, Hx.
Qed.

Lemma getitem_Ok {A} (l : list A) i x :
  0 <= i -> l !! Z.to_nat i = Some x -> getitem l i = Ok x.
Proof.
  intros Hi Hx. unfold getitem, py_index.
  pose proof (lookup_lt_Some _ _ _ Hx) as Hlt.
  replace ((0 <=? i) && (i <? Z.of_nat (length l))) with true.
  - simpl. unfold mbind, result_bind. now rewrite Hx.
  - symmetry. apply andb_true_iff. split; [apply Z.leb_le | apply Z.ltb_lt]; lia.
Qed.

Lemma loc_eqb_eq x y : loc_eqb x y = true <-> x = y.
Proof.
  destruct x as [x1 x2], y as [y1 y2]. unfold loc_eqb. simpl.
  rewrite andb_true_iff, !Z.eqb_eq. split; [intros [-> ->]; reflexivity | intros [= -> ->]; auto].
Qed.

Lemma loc_in_elem x locs : loc_in x locs = true <-> x ∈ locs.
Proof.
  unfold loc_in. rewrite existsb_exists. split.
  - intros [y [Hy%list_elem_of_In ->%loc_eqb_eq]]. assumption.
  - intros Hx. exists x. split; [now apply list_elem_of_In | now apply loc_eqb_eq].
Qed.

(** [locs.index(x)] is the first position holding [x]; when the locations
    are pairwise distinct it is the only one. *)
Lemma loc_index_from_spec locs : forall base x k,
  NoDup locs -> locs !! k = Some x ->
  loc_index_from base x locs = Ok (base + Z.of_nat k).
Proof.
  induction locs as [|y locs IH]; intros base x k Hnd Hk; [discriminate|].
  apply NoDup_cons in Hnd as [Hy Hnd]. simpl.
  destruct k as [|k]; simpl in Hk.
  - injection Hk as ->. replace (loc_eqb x x) with true by (symmetry; now apply loc_eqb_eq).
    f_equal. lia.
  - destruct (loc_eqb x y) eqn:E.
    + apply loc_eqb_eq in E as ->. exfalso. apply Hy.
      apply list_elem_of_lookup. eauto.
    + rewrite (IH (base + 1) x k Hnd Hk). f_equal. lia.
Qed.

Lemma loc_index_spec locs x k :
  NoDup locs -> 0 <= k -> locs !! Z.to_nat k = Some x -> loc_index x locs = Ok k.
Proof.
  intros Hnd Hk Hx. unfold loc_index.
  rewrite (loc_index_from_spec locs 0 x (Z.to_nat k) Hnd Hx). f_equal. lia.
Qed.

(** ** The six actions on a tuple *)

Section Actions.
Variable nL : Z.
Variable desc : list string.
Variable locs : list loc.
Variables row col passidx destidx : Z.

Lemma move_south :
  move nL desc locs row col passidx destidx 0
  = Ok (Outcome (Z.min (row + 1) maxR) col passidx (-1) false).
Proof. reflexivity. Qed.

Lemma move_north :
  move nL desc locs row col passidx destidx 1
  = Ok (Outcome (Z.max (row - 1) 0) col passidx (-1) false).
Proof. reflexivity. Qed.

Lemma move_east ch :
  desc_at desc (1 + row) (2 * col + 2) = Ok ch ->
  move nL desc locs row col passidx destidx 2
  = Ok (Outcome row (if is_colon ch then Z.min (col + 1) maxC else col)
                passidx (-1) false).
Proof.
  intros H. unfold move. simpl. rewrite H. simpl.
  destruct (is_colon ch); reflexivity.
Qed.

Lemma move_west ch :
  desc_at desc (1 + row) (2 * col) = Ok ch ->
  move nL desc locs row col passidx destidx 3
  = Ok (Outcome row (if is_colon ch then Z.max (col - 1) 0 else col)
                passidx (-1) false).
Proof.
  intros H. unfold move. simpl. rewrite H. simpl.
  destruct (is_colon ch); reflexivity.
Qed.

Lemma move_pickup_waiting l :
  passidx < nL -> getitem locs passidx = Ok l ->
  move nL desc locs row col passidx destidx 4
  = Ok (if loc_eqb (row, col) l then Outcome row col nL (-1) false
        else Outcome row col passidx (-10) false).
Proof.
  intros Hp H. unfold move. simpl.
  replace (passidx <? nL) with true by (symmetry; now apply Z.ltb_lt).
  rewrite H. simpl. destruct (loc_eqb (row, col) l); reflexivity.
Qed.

Lemma move_pickup_in_taxi :
  nL <= passidx ->
  move nL desc locs row col passidx destidx 4
  = Ok (Outcome row col passidx (-10) false).
Proof.
  intros Hp. unfold move. simpl.
  replace (passidx <? nL) with false by (symmetry; now apply Z.ltb_ge).
  reflexivity.
Qed.

Lemma move_dropoff d :
  getitem locs destidx = Ok d ->
  move nL desc locs row col passidx destidx 5
  = if loc_eqb (row, col) d && (passidx =? nL)
    then Ok (Outcome row col passidx 20 true)
    else if loc_in (row, col) locs && (passidx =? nL)
         then k ← loc_index (row, col) locs; Ok (Outcome row col k (-1) false)
         else Ok (Outcome row col passidx (-10) false).
Proof.
  intros H. unfold move. simpl. rewrite H. simpl.
  destruct (loc_eqb (row, col) d && (passidx =? nL)); [reflexivity|].
  destruct (loc_in (row, col) locs && (passidx =? nL)); reflexivity.
Qed.
End Actions.

(** ** The maps *)

Lemma init_layout nL env :
  init nL = Ok env ->
  layout nL = Some (env_desc env, env_locs env) /\ env_nS env = nS nL.
Proof.
  unfold init, tabulate. destruct (layout nL) as [[MAP locs]|]; [|discriminate].
  simpl. destruct (fill nL MAP locs _) as [[isd P]|]; simpl; [|discriminate].
  intros [= <-]. simpl. auto.
Qed.

Lemma init_unsupported nL :
  layout nL = None -> init nL = Raise (UnboundLocalError "MAP").
Proof. intros H. unfold init, tabulate. rewrite H. reflexivity. Qed.

Ltac each_layout H :=
  unfold layout in H;
  repeat match type of H with
         | context [?a =? ?b] =>
             destruct (Z.eqb_spec a b); [subst; injection H as <- <-|]
         end;
  [..|discriminate].

Ltac each_0_to_4 x :=
  let H := fresh in
  assert (H : x = 0 \/ x = 1 \/ x = 2 \/ x = 3 \/ x = 4) by lia;
  destruct H as [->|[->|[->|[->| ->]]]].

(** Every map lists [nL] pairwise distinct locations. *)
Lemma layout_locs nL desc locs :
  layout nL = Some (desc, locs) -> NoDup locs /\ Z.of_nat (length locs) = nL.
Proof.
  intros H. each_layout H; (split; [|reflexivity]);
    apply (bool_decide_unpack _); vm_compute; reflexivity.
Qed.

(** Every cell the wall test reads exists, and the outer border is a wall. *)
Lemma layout_desc nL desc locs row col :
  layout nL = Some (desc, locs) -> 0 <= row <= 4 -> 0 <= col <= 4 ->
  (exists ch, desc_at desc (1 + row) (2 * col + 2) = Ok ch) /\
  (exists ch, desc_at desc (1 + row) (2 * col) = Ok ch) /\
  desc_at desc (1 + row) 10 = Ok "|"%char /\
  desc_at desc (1 + row) 0 = Ok "|"%char.
Proof.
  intros H Hr Hc. each_layout H; each_0_to_4 row; each_0_to_4 col;
    (split; [eexists; reflexivity|split; [eexists; reflexivity|split; reflexivity]]).
Qed.

Lemma valid_locs_dest nL desc locs destidx :
  layout nL = Some (desc, locs) -> 0 <= destidx <= nL - 1 ->
  exists d, locs !! Z.to_nat destidx = Some d.
Proof.
  intros H Hd. destruct (layout_locs _ _ _ H) as [_ Hlen].
  apply lookup_lt_is_Some. lia.
Qed.

(** ** Checking a constructed table by evaluation *)

Lemma entry_eqb_eq x y : entry_eqb x y = true -> x = y.
Proof.
  destruct x as [[[[n1 d1] s1] r1] b1], y as [[[[n2 d2] s2] r2] b2]. simpl.
  rewrite !andb_true_iff, !Z.eqb_eq, Pos.eqb_eq, Bool.eqb_true_iff.
  intros [[[[-> ->] ->] ->] ->]. reflexivity.
Qed.

Lemma table_all_spec env f :
  table_all env f = true ->
  forall s a, 0 <= s < env_nS env -> 0 <= a <= 5 ->
  exists l, table_get (env_P env) s a = Some l /\ f s a l = true.
Proof.
  intros H s a Hs Ha. unfold table_all in H.
  pose proof (forallb_range _ _ H s Hs) as H1. cbv beta in H1.
  pose proof (forallb_range _ _ H1 a ltac:(unfold nA; lia)) as H2. cbv beta in H2.
  destruct (table_get (env_P env) s a) as [l|]; [eauto|discriminate].
Qed.

Lemma tuples_all_spec nL f :
  tuples_all nL f = true ->
  forall row col passidx destidx,
    valid_tuple nL row col passidx destidx -> f row col passidx destidx = true.
Proof.
  intros H row col passidx destidx (Hr & Hc & Hp & Hd). unfold tuples_all in H.
  pose proof (forallb_range _ _ H row ltac:(lia)) as H1. cbv beta in H1.
  pose proof (forallb_range _ _ H1 col ltac:(lia)) as H2. cbv beta in H2.
  pose proof (forallb_range _ _ H2 passidx ltac:(lia)) as H3. cbv beta in H3.
  exact (forallb_range _ _ H3 destidx ltac:(lia)).
Qed.

Lemma init_check_spec nL chk :
  init_check nL chk = true -> exists env, init nL = Ok env /\ chk env = true.
Proof.
  unfold init_check. destruct (init nL) as [env|e]; [eauto|discriminate].
Qed.

Lemma table_sound_supported nL :
  supported nL -> exists env, init nL = Ok env /\ table_sound nL env = true.
Proof.
  intros H. apply init_check_spec. apply supported_cases in H.
  destruct H as [->|[->|[->|[->| ->]]]]; vm_compute; reflexivity.
Qed.

(** [init] returns for every supported count; each visited tuple has its
    entry recorded, and every recorded entry has probability 1 and keeps
    the destination digit of its index. *)
Lemma init_records nL :
  supported nL ->
  exists env,
    init nL = Ok env /\
    (forall row col passidx destidx a,
        valid_tuple nL row col passidx destidx -> 0 <= a <= 5 ->
        exists o l,
          move nL (env_desc env) (env_locs env) row col passidx destidx a = Ok o /\
          table_get (env_P env) (encode nL row col passidx destidx) a = Some l /\
          entry_of nL destidx o ∈ l) /\
    (forall s a, 0 <= s < env_nS env -> 0 <= a <= 5 ->
        exists l,
          table_get (env_P env) s a = Some l /\
          forall p ns r d, (p, ns, r, d) ∈ l -> p = 1%Q /\ ns mod nL = s mod nL).
Proof.
  intros H. destruct (table_sound_supported nL H) as (env & Hinit & Hs).
  apply andb_true_iff in Hs as [Ht Ha].
  exists env. split; [assumption|]. split.
  - intros row col passidx destidx a Hv Hrange.
    pose proof (tuples_all_spec _ _ Ht _ _ _ _ Hv) as Hr. unfold records_tuple in Hr.
    pose proof (forallb_range _ _ Hr a ltac:(unfold nA; lia)) as Hra. cbv beta in Hra.
    destruct (move nL _ _ row col passidx destidx a) as [o|]; [|discriminate].
    destruct (table_get _ _ a) as [l|]; [|discriminate].
    exists o, l. split; [reflexivity|]. split; [reflexivity|].
    apply existsb_exists in Hra as [e [He%list_elem_of_In ->%entry_eqb_eq]]. assumption.
  - intros s a Hsr Har.
    destruct (table_all_spec _ _ Ha s a Hsr Har) as (l & Hl & Hf).
    exists l. split; [assumption|]. intros p ns r d Hin.
    unfold entries_sound in Hf. rewrite forallb_forall in Hf.
    specialize (Hf _ (proj1 (list_elem_of_In _ _) Hin)). cbv beta iota in Hf.
    apply andb_true_iff in Hf as [[Hn%Z.eqb_eq Hd%Pos.eqb_eq]%andb_true_iff Hm%Z.eqb_eq].
    split; [|assumption]. destruct p as [n dn]. simpl in *. subst. reflexivity.
Qed.

(** * The claims *)

(** ** C1: decoding an encoded tuple *)

(** Two tuples of the five-location world share an index. *)
Lemma encode_collision_L5 : encode 5 0 0 5 0 = encode 5 0 1 0 0.
Proof. reflexivity. Qed.

(** C1 (defect in the code): the claim is that for every supported L and
    every valid tuple, decoding the encoded tuple returns the tuple.
    [encode] packs the passenger index with radix 5 whatever [nL] is, so
    with L = 5 the valid tuple (0, 0, 5, 0) decodes to (0, 1, 0, 0), and the
    valid tuple (4, 4, 5, 0) encodes to an index on which [decode] fails
    its own assertion. *)
Theorem decode_encode_L5_passenger_in_taxi :
  supported 5 /\
  valid_tuple 5 0 0 5 0 /\ decode 5 (encode 5 0 0 5 0) = Ok (0, 1, 0, 0) /\
  valid_tuple 5 4 4 5 0 /\ decode 5 (encode 5 4 4 5 0) = Raise AssertionError.
Proof.
  split; [apply supported_cases; lia|].
  unfold valid_tuple. repeat split; lia.
Qed.

(** ** C2: the number of states *)




(** ** C3: one outcome for each state and action *)







(** ** C4: an unsupported location count *)

(** The claim of C4 fails at L = 3: the constructor stops on the unbound
    local [MAP], not on an error it raises itself. *)
Lemma init_L3_unbound_local :
  ~ supported 3 /\
  init 3 = Raise (UnboundLocalError "MAP") /\
  ~ exists cls msg, init 3 = Raise (Raised cls msg).
Proof.
  split; [rewrite supported_cases; lia|]. split; [reflexivity|].
  intros (cls & msg & H). discriminate H.
Qed.

(** C4 (amended): for every location count outside {2,4,5,6,8} the
    constructor fails at construction time, before any table is built,
    with Python's unbound-local-variable error on [MAP]; it has no check
    of the location count and raises no error of its own. *)
Theorem init_unsupported_fails nL :
  ~ supported nL -> init nL = Raise (UnboundLocalError "MAP").
Proof.
  intros H. apply init_unsupported.
  destruct (layout nL) as [x|] eqn:E; [|reflexivity].
  exfalso. apply H, layout_supported. eauto.
Qed.

Lemma init_unsupported_fails_witness :
  ~ supported 7 /\ init 7 = Raise (UnboundLocalError "MAP").
Proof.
  assert (H : ~ supported 7) by (rewrite supported_cases; lia).
  split; [exact H|]. exact (init_unsupported_fails 7 H).
Defined.

(** ** C5: the sanity check of [decode] *)




(** ** C6: the initial state distribution *)

Lemma Q_eqb_eq x y : Q_eqb x y = true -> x = y.
Proof.
  destruct x as [n1 d1], y as [n2 d2]. unfold Q_eqb, Qnum, Qden.
  intros [->%Z.eqb_eq ->%Pos.eqb_eq]%andb_true_iff. reflexivity.
Qed.

(** With 2, 4 or 5 locations the distribution sums to 1, gives each state
    whose decoded passenger waits away from the decoded destination the
    same mass, and gives the other states of the table none. *)
Lemma isd_uniform_small nL s :
  nL = 2 \/ nL = 4 \/ nL = 5 -> 0 <= s < nS nL ->
  exists env x,
    init nL = Ok env /\ (Qsum (env_isd env) == 1)%Q /\
    env_isd env !! Z.to_nat s = Some x /\
    x = if waitingb nL s then (1 # Z.to_pos (25 * nL * (nL - 1)))%Q else 0%Q.
Proof.
  intros HL Hs.
  assert (Hchk : init_check nL (fun env => (env_nS env =? nS nL) && isd_uniform_ok nL env) = true)
    by (destruct HL as [->|[->| ->]]; vm_compute; reflexivity).
  destruct (init_check_spec _ _ Hchk) as (env & Hi & Hc).
  apply andb_true_iff in Hc as [Hn%Z.eqb_eq [Hsum%Q_eqb_eq Hall]%andb_true_iff].
  pose proof (forallb_range _ _ Hall s ltac:(lia)) as Hx. cbv beta in Hx.
  destruct (env_isd env !! Z.to_nat s) as [x|] eqn:Ex; [|discriminate Hx].
  exists env, x. split; [assumption|]. split.
  - rewrite <- (Qred_correct (Qsum (env_isd env))), Hsum. reflexivity.
  - split; [exact Ex|]. apply Q_eqb_eq, Hx.
Qed.

(** C6 (defect in the code): the claim is that the distribution is uniform
    over exactly the states whose decoded passenger index is below L and
    differs from the decoded destination, and zero elsewhere.  With L = 6
    the tuples (0,0,5,0) and (0,1,0,0) share index 30 and the tuples
    (0,0,5,1) and (0,1,0,1) share index 31: state 30 decodes to a passenger
    standing at the destination and has mass 1/750, and state 31 has mass
    2/750, twice that of state 1. *)
Theorem isd_L6_not_uniform :
  supported 6 /\
  exists env,
    init 6 = Ok env /\
    decode 6 30 = Ok (0, 1, 0, 0) /\ env_isd env !! 30%nat = Some (1 # 750)%Q /\
    decode 6 31 = Ok (0, 1, 0, 1) /\ env_isd env !! 31%nat = Some (1 # 375)%Q /\
    decode 6 1 = Ok (0, 0, 0, 1) /\ env_isd env !! 1%nat = Some (1 # 750)%Q.
Proof.
  split; [apply supported_cases; lia|].
  destruct (init_check_spec 6
              (fun env =>
                 match env_isd env !! 30%nat, env_isd env !! 31%nat, env_isd env !! 1%nat with
                 | Some x, Some y, Some z =>
                     entry_eqb (x, 0, 0, true) ((1 # 750)%Q, 0, 0, true)
                     && entry_eqb (y, 0, 0, true) ((1 # 375)%Q, 0, 0, true)
                     && entry_eqb (z, 0, 0, true) ((1 # 750)%Q, 0, 0, true)
                 | _, _, _ => false
                 end)) as (env & Hi & Hc); [vm_compute; reflexivity|].
  exists env. split; [assumption|].
  destruct (env_isd env !! 30%nat) as [x|]; [|discriminate Hc].
  destruct (env_isd env !! 31%nat) as [y|]; [|discriminate Hc].
  destruct (env_isd env !! 1%nat) as [z|]; [|discriminate Hc].
  apply andb_true_iff in Hc as [[Hx%entry_eqb_eq Hy%entry_eqb_eq]%andb_true_iff Hz%entry_eqb_eq].
  injection Hx as ->. injection Hy as ->. injection Hz as ->.
  repeat split; reflexivity.
Qed.

(** ** What the table holds at an index *)

Lemma entries_eqb_eq l1 : forall l2, entries_eqb l1 l2 = true -> l1 = l2.
Proof.
  induction l1 as [|x l1 IH]; intros [|y l2]; simpl; try discriminate; [reflexivity|].
  intros [Hx%entry_eqb_eq Hl%IH]%andb_true_iff. congruence.
Qed.

Lemma table_is_spec env s a l :
  table_is env s a l = true -> table_get (env_P env) s a = Some l.
Proof.
  unfold table_is. destruct (table_get (env_P env) s a) as [l'|]; [|discriminate].
  intros H%entries_eqb_eq. congruence.
Qed.

(** With 2 or 4 locations the list at the index of a visited tuple is the
    one entry of that tuple, and the successor it records decodes to the
    new tuple. *)
Lemma table_exact_small nL :
  nL = 2 \/ nL = 4 ->
  exists env,
    init nL = Ok env /\
    forall row col passidx destidx a,
      valid_tuple nL row col passidx destidx -> 0 <= a <= 5 ->
      exists o,
        move nL (env_desc env) (env_locs env) row col passidx destidx a = Ok o /\
        table_get (env_P env) (encode nL row col passidx destidx) a
        = Some [entry_of nL destidx o] /\
        decode nL (encode nL (newrow o) (newcol o) (newpassidx o) destidx)
        = Ok (newrow o, newcol o, newpassidx o, destidx).
Proof.
  intros HL.
  assert (Hchk : init_check nL (fun env => tuples_all nL (tuple_exact nL env)) = true)
    by (destruct HL as [->| ->]; vm_compute; reflexivity).
  destruct (init_check_spec _ _ Hchk) as (env & Hi & Hc).
  exists env. split; [assumption|]. clear Hchk Hi.
  intros row col passidx destidx a Hv Ha.
  pose proof (tuples_all_spec _ _ Hc _ _ _ _ Hv) as Ht. unfold tuple_exact in Ht.
  pose proof (forallb_range _ _ Ht a ltac:(unfold nA; lia)) as Hta. cbv beta in Hta.
  destruct (move nL _ _ row col passidx destidx a) as [o|] eqn:Em; [|discriminate Hta].
  destruct (table_get _ _ a) as [[|e [|? ?]]|] eqn:Eg; try discriminate Hta.
  apply andb_true_iff in Hta as [->%entry_eqb_eq Hdec].
  exists o. split; [reflexivity|]. split; [reflexivity|].
  destruct (decode nL _) as [[[[r c] p] d]|]; [|discriminate Hdec].
  rewrite !andb_true_iff, !Z.eqb_eq in Hdec.
  destruct Hdec as [[[-> ->] ->] ->]. reflexivity.
Qed.

(** The lists the constructor builds, with five and with six locations,
    at the indices used below.  Each of 25 and 26 (five locations) and of
    126 and 726 (six locations) is the index of two visited tuples. *)
Lemma shared_indices_L5 :
  exists env,
    init 5 = Ok env /\
    env_locs env = [(0,0); (0,4); (2,4); (4,0); (4,3)] /\
    desc_at (env_desc env) 1 2 = Ok ":"%char /\
    desc_at (env_desc env) 1 4 = Ok "|"%char /\
    table_get (env_P env) 26 2 = Some [(1%Q, 51, -1, false); (1%Q, 26, -1, false)] /\
    table_get (env_P env) 1 4 = Some [(1%Q, 26, -1, false)] /\
    table_get (env_P env) 26 5 = Some [(1%Q, 1, -1, false); (1%Q, 26, -10, false)] /\
    table_get (env_P env) 25 5 = Some [(1%Q, 25, 20, true); (1%Q, 25, -10, false)].
Proof.
  destruct (init_check_spec 5
    (fun env =>
       table_is env 26 2 [(1%Q, 51, -1, false); (1%Q, 26, -1, false)]
       && table_is env 1 4 [(1%Q, 26, -1, false)]
       && table_is env 26 5 [(1%Q, 1, -1, false); (1%Q, 26, -10, false)]
       && table_is env 25 5 [(1%Q, 25, 20, true); (1%Q, 25, -10, false)]))
    as (env & Hi & Hc); [vm_compute; reflexivity|].
  apply andb_true_iff in Hc as [[[H1%table_is_spec H2%table_is_spec]%andb_true_iff
                                   H3%table_is_spec]%andb_true_iff H4%table_is_spec].
  destruct (init_layout _ _ Hi) as [Hlay _].
  injection Hlay as Hdesc Hlocs.
  exists env. split; [assumption|]. rewrite <- Hdesc, <- Hlocs.
  repeat (split; [first [reflexivity|assumption]|]). assumption.
Qed.

Lemma shared_indices_L6 :
  exists env,
    init 6 = Ok env /\
    env_locs env = [(0,0); (0,4); (2,1); (2,2); (4,0); (4,3)] /\
    table_get (env_P env) 126 4 = Some [(1%Q, 126, -10, false); (1%Q, 156, -1, false)] /\
    table_get (env_P env) 726 5 = Some [(1%Q, 720, -1, false); (1%Q, 726, -10, false)].
Proof.
  destruct (init_check_spec 6
    (fun env =>
       table_is env 126 4 [(1%Q, 126, -10, false); (1%Q, 156, -1, false)]
       && table_is env 726 5 [(1%Q, 720, -1, false); (1%Q, 726, -10, false)]))
    as (env & Hi & Hc); [vm_compute; reflexivity|].
  apply andb_true_iff in Hc as [H1%table_is_spec H2%table_is_spec].
  destruct (init_layout _ _ Hi) as [Hlay _].
  injection Hlay as Hdesc Hlocs.
  exists env. split; [assumption|]. rewrite <- Hlocs.
  repeat (split; [first [reflexivity|assumption]|]). assumption.
Qed.

Lemma small_supported nL : nL = 2 \/ nL = 4 -> supported nL.
Proof. intros H. apply supported_cases. lia. Qed.

(** ** C7: dropoff *)

(** The loop body on action 5 (dropoff), for every supported L and every
    visited tuple: with the passenger in the taxi at the destination
    location it computes reward +20 and done = True; with the passenger in
    the taxi at another named location, that location's index as the new
    passenger index, reward -1 and done = False; otherwise reward -10 and
    the tuple unchanged.  The entry it appends is in the list at the
    tuple's index. *)
Lemma dropoff_step nL row col passidx destidx :
  supported nL -> valid_tuple nL row col passidx destidx ->
  exists env o l,
    init nL = Ok env /\
    move nL (env_desc env) (env_locs env) row col passidx destidx 5 = Ok o /\
    table_get (env_P env) (encode nL row col passidx destidx) 5 = Some l /\
    entry_of nL destidx o ∈ l /\
    (passidx = nL -> env_locs env !! Z.to_nat destidx = Some (row, col) ->
     reward o = 20 /\ done o = true) /\
    (passidx = nL -> env_locs env !! Z.to_nat destidx <> Some (row, col) ->
     forall k, 0 <= k -> env_locs env !! Z.to_nat k = Some (row, col) ->
     newpassidx o = k /\ reward o = -1 /\ done o = false /\
     newrow o = row /\ newcol o = col) /\
    (~ (passidx = nL /\ (row, col) ∈ env_locs env) ->
     reward o = -10 /\ done o = false /\
     newrow o = row /\ newcol o = col /\ newpassidx o = passidx).
Proof.
  intros HL Hv.
  destruct (init_records nL HL) as (env & Hi & Hrec & _).
  destruct (Hrec row col passidx destidx 5 Hv ltac:(lia)) as (o & l & Hm & Hl & Hin).
  destruct (init_layout _ _ Hi) as [Hlay _].
  destruct (layout_locs _ _ _ Hlay) as [Hnd Hlen].
  destruct Hv as (Hr & Hc & Hp & Hd).
  destruct (valid_locs_dest _ _ _ destidx Hlay Hd) as [dl Hdl].
  assert (Hget : getitem (env_locs env) destidx = Ok dl) by (apply getitem_Ok; [lia|assumption]).
  pose proof Hm as Hmove.
  rewrite (move_dropoff _ _ _ _ _ _ _ dl Hget) in Hm.
  exists env, o, l. do 4 (split; [assumption|]). clear Hi Hrec Hl Hin Hmove.
  pose proof (loc_eqb_eq (row, col) dl) as H1.
  pose proof (Z.eqb_eq passidx nL) as H2.
  pose proof (loc_in_elem (row, col) (env_locs env)) as H3.
  assert (Hdin : dl ∈ env_locs env) by (apply list_elem_of_lookup; eauto).
  destruct (loc_eqb (row, col) dl), (passidx =? nL), (loc_in (row, col) (env_locs env));
    cbn [andb] in Hm.
  1,2: injection Hm as <-; cbn [reward done newrow newcol newpassidx]; split; [auto|]; split;
       [ intros _ Hne; exfalso; apply Hne; rewrite Hdl; f_equal; symmetry; now apply H1
       | intros Hn; exfalso; apply Hn; split;
         [now apply H2 | rewrite (proj1 H1 eq_refl); assumption] ].
  1,2,4,5,6: injection Hm as <-; cbn [reward done newrow newcol newpassidx]; split;
       [ intros Hp' Hloc; exfalso; rewrite Hdl in Hloc; injection Hloc as Hloc;
         first [ now apply H2 in Hp' | symmetry in Hloc; now apply H1 in Hloc ] |];
       (split; [|auto]);
       intros Hp' Hne k Hk Hat; exfalso;
       first [ now apply H2 in Hp'
             | assert (Hin : (row, col) ∈ env_locs env)
                 by (apply list_elem_of_lookup; eauto);
               now apply H3 in Hin ].
  split; [|split].
  - intros _ Hloc. exfalso. rewrite Hdl in Hloc. injection Hloc as Hloc.
    symmetry in Hloc. now apply H1 in Hloc.
  - intros _ _ k Hk Hat. rewrite (loc_index_spec _ _ k Hnd Hk Hat) in Hm.
    injection Hm as <-. cbn [reward done newrow newcol newpassidx]. auto.
  - intros Hn. exfalso. apply Hn. split; [now apply H2 | now apply H3].
Qed.

(** With 2 or 4 locations the table holds, at the index of a visited
    tuple, exactly that outcome for dropoff, and [decode] reads the
    recorded successor as the new tuple. *)
Lemma dropoff_table_small nL row col passidx destidx :
  nL = 2 \/ nL = 4 -> valid_tuple nL row col passidx destidx ->
  exists env o,
    init nL = Ok env /\
    move nL (env_desc env) (env_locs env) row col passidx destidx 5 = Ok o /\
    table_get (env_P env) (encode nL row col passidx destidx) 5
    = Some [(1%Q, encode nL (newrow o) (newcol o) (newpassidx o) destidx,
             reward o, done o)] /\
    decode nL (encode nL (newrow o) (newcol o) (newpassidx o) destidx)
    = Ok (newrow o, newcol o, newpassidx o, destidx) /\
    (passidx = nL -> env_locs env !! Z.to_nat destidx = Some (row, col) ->
     reward o = 20 /\ done o = true) /\
    (passidx = nL -> env_locs env !! Z.to_nat destidx <> Some (row, col) ->
     forall k, 0 <= k -> env_locs env !! Z.to_nat k = Some (row, col) ->
     newpassidx o = k /\ reward o = -1 /\ done o = false /\
     newrow o = row /\ newcol o = col) /\
    (~ (passidx = nL /\ (row, col) ∈ env_locs env) ->
     reward o = -10 /\ done o = false /\
     newrow o = row /\ newcol o = col /\ newpassidx o = passidx).
Proof.
  intros HL Hv.
  destruct (table_exact_small nL HL) as (env & Hi & Hex).
  destruct (Hex row col passidx destidx 5 Hv ltac:(lia)) as (o & Hm & Hg & Hd).
  destruct (dropoff_step nL row col passidx destidx (small_supported nL HL) Hv)
    as (env' & o' & l & Hi' & Hm' & _ & _ & Hcases).
  rewrite Hi in Hi'. injection Hi' as <-.
  rewrite Hm in Hm'. injection Hm' as <-.
  exists env, o. do 4 (split; [assumption|]). exact Hcases.
Qed.

(** C7 (defect in the code): the claim is that for every state tuple the
    dropoff transition is the one the tuple determines: +20 and done with
    the passenger in the taxi at the destination, the passenger put down
    at another named location, and otherwise reward -10 with the state
    unchanged.  [encode] packs the passenger index with radix 5, so with
    L = 5 the tuple (0,1,0,1), where the passenger waits, shares index 26
    with (0,0,5,1): the list the table holds for dropoff at that index has
    two outcomes, the first with reward -1 and successor 1.  The tuple
    (0,1,0,0) shares index 25 with (0,0,5,0): its list starts with reward
    +20 and done = True.  With L = 6, from (4,3,6,0) the passenger is put
    down at location 5, which is (4,3), and [decode] reads the recorded
    successor 720 as (4,4,0,0). *)
Theorem dropoff_table_shared_index :
  supported 5 /\ supported 6 /\
  valid_tuple 5 0 1 0 1 /\ valid_tuple 5 0 1 0 0 /\ valid_tuple 6 4 3 6 0 /\
  (exists env,
      init 5 = Ok env /\
      table_get (env_P env) (encode 5 0 1 0 1) 5
      = Some [(1%Q, 1, -1, false); (1%Q, 26, -10, false)] /\
      table_get (env_P env) (encode 5 0 1 0 0) 5
      = Some [(1%Q, 25, 20, true); (1%Q, 25, -10, false)]) /\
  (exists env,
      init 6 = Ok env /\
      env_locs env !! 5%nat = Some (4, 3) /\
      table_get (env_P env) (encode 6 4 3 6 0) 5
      = Some [(1%Q, 720, -1, false); (1%Q, 726, -10, false)] /\
      decode 6 720 = Ok (4, 4, 0, 0)).
Proof.
  split; [apply supported_cases; lia|]. split; [apply supported_cases; lia|].
  do 3 (split; [unfold valid_tuple; lia|]). split.
  - destruct shared_indices_L5 as (env & Hi & _ & _ & _ & _ & _ & H26 & H25).
    exists env. split; [assumption|]. split; assumption.
  - destruct shared_indices_L6 as (env & Hi & Hlocs & _ & H726).
    exists env. split; [assumption|]. rewrite Hlocs.
    split; [reflexivity|]. split; [assumption|reflexivity].
Qed.

(** ** C8: pickup *)

(** The loop body on action 4 (pickup), for every supported L and every
    visited tuple: with the passenger waiting (passenger_index < L) at the
    taxi's cell it computes L as the new passenger index, reward -1 and
    done = False; otherwise reward -10 and the tuple unchanged.  The entry
    it appends is in the list at the tuple's index. *)
Lemma pickup_step nL row col passidx destidx :
  supported nL -> valid_tuple nL row col passidx destidx ->
  exists env o l,
    init nL = Ok env /\
    move nL (env_desc env) (env_locs env) row col passidx destidx 4 = Ok o /\
    table_get (env_P env) (encode nL row col passidx destidx) 4 = Some l /\
    entry_of nL destidx o ∈ l /\
    (passidx < nL -> env_locs env !! Z.to_nat passidx = Some (row, col) ->
     newpassidx o = nL /\ reward o = -1 /\ done o = false /\
     newrow o = row /\ newcol o = col) /\
    (~ (passidx < nL /\ env_locs env !! Z.to_nat passidx = Some (row, col)) ->
     reward o = -10 /\ done o = false /\
     newrow o = row /\ newcol o = col /\ newpassidx o = passidx /\
     entry_of nL destidx o = (1%Q, encode nL row col passidx destidx, -10, false)).
Proof.
  intros HL Hv.
  destruct (init_records nL HL) as (env & Hi & Hrec & _).
  destruct (Hrec row col passidx destidx 4 Hv ltac:(lia)) as (o & l & Hm & Hl & Hin).
  destruct (init_layout _ _ Hi) as [Hlay _].
  destruct (layout_locs _ _ _ Hlay) as [_ Hlen].
  destruct Hv as (Hr & Hc & Hp & Hd).
  exists env, o, l. do 4 (split; [assumption|]). clear Hi Hrec Hl Hin.
  destruct (Z.lt_ge_cases passidx nL) as [Hlt|Hge].
  - assert (Hsome : is_Some (env_locs env !! Z.to_nat passidx))
      by (apply lookup_lt_is_Some; lia).
    destruct Hsome as [pl Hpl].
    assert (Hget : getitem (env_locs env) passidx = Ok pl)
      by (apply getitem_Ok; [lia|assumption]).
    rewrite (move_pickup_waiting _ _ _ _ _ _ _ pl Hlt Hget) in Hm.
    pose proof (loc_eqb_eq (row, col) pl) as H1.
    destruct (loc_eqb (row, col) pl); injection Hm as <-;
      cbn [reward done newrow newcol newpassidx]; (split; [|intros Hn]).
    + auto.
    + exfalso. apply Hn. split; [assumption|]. rewrite Hpl. f_equal.
      symmetry. now apply H1.
    + intros _ Hloc. exfalso. rewrite Hpl in Hloc. injection Hloc as Hloc.
      symmetry in Hloc. now apply H1 in Hloc.
    + repeat split; reflexivity.
  - rewrite (move_pickup_in_taxi _ _ _ _ _ _ _ Hge) in Hm. injection Hm as <-.
    cbn [reward done newrow newcol newpassidx]. split; [lia|].
    intros _. repeat split; reflexivity.
Qed.

(** With 2 or 4 locations the table holds, at the index of a visited
    tuple, exactly that outcome for pickup, and [decode] reads the
    recorded successor as the new tuple. *)
Lemma pickup_table_small nL row col passidx destidx :
  nL = 2 \/ nL = 4 -> valid_tuple nL row col passidx destidx ->
  exists env o,
    init nL = Ok env /\
    move nL (env_desc env) (env_locs env) row col passidx destidx 4 = Ok o /\
    table_get (env_P env) (encode nL row col passidx destidx) 4
    = Some [(1%Q, encode nL (newrow o) (newcol o) (newpassidx o) destidx,
             reward o, done o)] /\
    decode nL (encode nL (newrow o) (newcol o) (newpassidx o) destidx)
    = Ok (newrow o, newcol o, newpassidx o, destidx) /\
    (passidx < nL -> env_locs env !! Z.to_nat passidx = Some (row, col) ->
     newpassidx o = nL /\ reward o = -1 /\ done o = false /\
     newrow o = row /\ newcol o = col) /\
    (~ (passidx < nL /\ env_locs env !! Z.to_nat passidx = Some (row, col)) ->
     reward o = -10 /\ done o = false /\
     newrow o = row /\ newcol o = col /\ newpassidx o = passidx).
Proof.
  intros HL Hv.
  destruct (table_exact_small nL HL) as (env & Hi & Hex).
  destruct (Hex row col passidx destidx 4 Hv ltac:(lia)) as (o & Hm & Hg & Hd).
  destruct (pickup_step nL row col passidx destidx (small_supported nL HL) Hv)
    as (env' & o' & l & Hi' & Hm' & _ & _ & Hyes & Hno).
  rewrite Hi in Hi'. injection Hi' as <-.
  rewrite Hm in Hm'. injection Hm' as <-.
  exists env, o. do 4 (split; [assumption|]). split; [exact Hyes|].
  intros Hn. destruct (Hno Hn) as (H1 & H2 & H3 & H4 & H5 & _). auto.
Qed.

(** C8 (defect in the code): the claim is that for every state tuple a
    pickup with the passenger waiting at the taxi's cell puts the
    passenger in the taxi (new passenger_index L) with reward -1, and that
    every other pickup has reward -10 with the state unchanged.  [encode]
    packs the passenger index with radix 5, so with L = 6 the tuple
    (0,4,1,0), where the passenger waits at location 1 = (0,4) under the
    taxi, shares index 126 with (0,3,6,0): the list the table holds for
    pickup at that index starts with the outcome of reward -10, and
    [decode] reads the successor 156 of the second as (1,0,1,0), passenger
    still waiting.  With L = 5 the pickup from (0,0,0,1) records successor
    26, which [decode] reads as (0,1,0,1). *)
Theorem pickup_table_shared_index :
  supported 6 /\ supported 5 /\
  valid_tuple 6 0 4 1 0 /\ valid_tuple 5 0 0 0 1 /\
  (exists env,
      init 6 = Ok env /\
      env_locs env !! 1%nat = Some (0, 4) /\
      table_get (env_P env) (encode 6 0 4 1 0) 4
      = Some [(1%Q, 126, -10, false); (1%Q, 156, -1, false)] /\
      decode 6 156 = Ok (1, 0, 1, 0)) /\
  (exists env,
      init 5 = Ok env /\
      env_locs env !! 0%nat = Some (0, 0) /\
      table_get (env_P env) (encode 5 0 0 0 1) 4 = Some [(1%Q, 26, -1, false)] /\
      decode 5 26 = Ok (0, 1, 0, 1)).
Proof.
  split; [apply supported_cases; lia|]. split; [apply supported_cases; lia|].
  do 2 (split; [unfold valid_tuple; lia|]). split.
  - destruct shared_indices_L6 as (env & Hi & Hlocs & H126 & _).
    exists env. split; [assumption|]. rewrite Hlocs.
    split; [reflexivity|]. split; [assumption|reflexivity].
  - destruct shared_indices_L5 as (env & Hi & Hlocs & _ & _ & _ & H1 & _).
    exists env. split; [assumption|]. rewrite Hlocs.
    split; [reflexivity|]. split; [assumption|reflexivity].
Qed.

(** ** C9: the four moves *)

(** A cell on the outer border is never an open passage. *)
Lemma bar_not_colon : is_colon "|"%char = false.
Proof. reflexivity. Qed.

(** The loop body on the four moves, for every supported L and every
    visited tuple: east (2) and west (3) change the column, by one, only
    when the map cell next to the taxi in that direction is ':' and leave
    it unchanged otherwise; south (0) and north (1) are never blocked and
    only clamp the row to [0,4].  From row 0, north yields row 0 with
    reward -1 and done = False; from column 4, east leaves the column
    unchanged.  Each of the four entries is in the list at the tuple's
    index, with reward -1, done = False and the passenger unchanged. *)
Lemma movement_steps nL row col passidx destidx :
  supported nL -> valid_tuple nL row col passidx destidx ->
  exists env,
    init nL = Ok env /\
    (exists ch o,
        desc_at (env_desc env) (1 + row) (2 * col + 2) = Ok ch /\
        move nL (env_desc env) (env_locs env) row col passidx destidx 2 = Ok o /\
        newcol o = (if is_colon ch then col + 1 else col) /\ newrow o = row /\
        (col = 4 -> newcol o = col)) /\
    (exists ch o,
        desc_at (env_desc env) (1 + row) (2 * col) = Ok ch /\
        move nL (env_desc env) (env_locs env) row col passidx destidx 3 = Ok o /\
        newcol o = (if is_colon ch then col - 1 else col) /\ newrow o = row) /\
    (exists o,
        move nL (env_desc env) (env_locs env) row col passidx destidx 0 = Ok o /\
        newrow o = Z.min (row + 1) 4 /\ newcol o = col) /\
    (exists o,
        move nL (env_desc env) (env_locs env) row col passidx destidx 1 = Ok o /\
        newrow o = Z.max (row - 1) 0 /\ newcol o = col /\
        (row = 0 -> newrow o = 0 /\ reward o = -1 /\ done o = false)) /\
    (forall a, 0 <= a <= 3 ->
        exists o l,
          move nL (env_desc env) (env_locs env) row col passidx destidx a = Ok o /\
          table_get (env_P env) (encode nL row col passidx destidx) a = Some l /\
          entry_of nL destidx o ∈ l /\
          newpassidx o = passidx /\ reward o = -1 /\ done o = false).
Proof.
  intros HL Hv.
  destruct (init_records nL HL) as (env & Hi & Hrec & _).
  destruct (init_layout _ _ Hi) as [Hlay _].
  pose proof Hv as (Hr & Hc & Hp & Hd).
  destruct (layout_desc _ _ _ row col Hlay Hr Hc)
    as ([che Heast] & [chw Hwest] & Hright & Hleft).
  pose proof (move_east nL (env_desc env) (env_locs env) row col passidx destidx che Heast) as Me.
  pose proof (move_west nL (env_desc env) (env_locs env) row col passidx destidx chw Hwest) as Mw.
  exists env. split; [assumption|]. clear Hi.
  split; [|split; [|split; [|split]]].
  - eexists che, _. split; [exact Heast|]. split; [exact Me|].
    cbn [newcol newrow]. unfold maxC, nC.
    assert (Hcol : col = 4 -> is_colon che = false).
    { intros ->. change (2 * 4 + 2) with 10 in Heast. rewrite Hright in Heast.
      injection Heast as <-. apply bar_not_colon. }
    destruct (is_colon che).
    + split; [|split; [reflexivity|]].
      * destruct (Z.eq_dec col 4) as [E|E]; [specialize (Hcol E); discriminate Hcol|lia].
      * intros E. specialize (Hcol E). discriminate Hcol.
    + auto.
  - eexists chw, _. split; [exact Hwest|]. split; [exact Mw|].
    cbn [newcol newrow].
    assert (Hcol : col = 0 -> is_colon chw = false).
    { intros ->. change (2 * 0) with 0 in Hwest. rewrite Hleft in Hwest.
      injection Hwest as <-. apply bar_not_colon. }
    destruct (is_colon chw).
    + split; [|reflexivity].
      destruct (Z.eq_dec col 0) as [E|E]; [specialize (Hcol E); discriminate Hcol|lia].
    + auto.
  - eexists. split; [apply move_south|]. cbn [newcol newrow]. auto.
  - eexists. split; [apply move_north|]. cbn [newcol newrow reward done].
    split; [reflexivity|]. split; [reflexivity|]. intros ->. auto.
  - intros a Ha.
    destruct (Hrec row col passidx destidx a Hv ltac:(lia)) as (o & l & Hm & Hl & Hin).
    exists o, l. do 3 (split; [assumption|]).
    assert (Hcases : a = 0 \/ a = 1 \/ a = 2 \/ a = 3) by lia.
    destruct Hcases as [->|[->|[->| ->]]].
    + rewrite move_south in Hm. injection Hm as <-. auto.
    + rewrite move_north in Hm. injection Hm as <-. auto.
    + rewrite Me in Hm. injection Hm as <-. auto.
    + rewrite Mw in Hm. injection Hm as <-. auto.
Qed.

(** With 2 or 4 locations the table holds, at the index of a visited
    tuple, exactly that outcome for each of the four moves, and [decode]
    reads the recorded successor as the new tuple. *)
Lemma movement_table_small nL row col passidx destidx a :
  nL = 2 \/ nL = 4 -> valid_tuple nL row col passidx destidx -> 0 <= a <= 3 ->
  exists env o che chw,
    init nL = Ok env /\
    move nL (env_desc env) (env_locs env) row col passidx destidx a = Ok o /\
    table_get (env_P env) (encode nL row col passidx destidx) a
    = Some [(1%Q, encode nL (newrow o) (newcol o) passidx destidx, -1, false)] /\
    decode nL (encode nL (newrow o) (newcol o) passidx destidx)
    = Ok (newrow o, newcol o, passidx, destidx) /\
    desc_at (env_desc env) (1 + row) (2 * col + 2) = Ok che /\
    desc_at (env_desc env) (1 + row) (2 * col) = Ok chw /\
    (a = 0 -> newrow o = Z.min (row + 1) 4 /\ newcol o = col) /\
    (a = 1 -> newrow o = Z.max (row - 1) 0 /\ newcol o = col) /\
    (a = 2 -> newrow o = row /\ newcol o = (if is_colon che then col + 1 else col)) /\
    (a = 3 -> newrow o = row /\ newcol o = (if is_colon chw then col - 1 else col)).
Proof.
  intros HL Hv Ha.
  destruct (table_exact_small nL HL) as (env & Hi & Hex).
  destruct (Hex row col passidx destidx a Hv ltac:(lia)) as (o & Hm & Hg & Hd).
  destruct (movement_steps nL row col passidx destidx (small_supported nL HL) Hv)
    as (env' & Hi' & (che & oe & Hche & Hme & Hce & Hre & _)
        & (chw & ow & Hchw & Hmw & Hcw & Hrw)
        & (os & Hms & Hrs & Hcs) & (on & Hmn & Hrn & Hcn & _) & Hall).
  rewrite Hi in Hi'. injection Hi' as <-.
  destruct (Hall a Ha) as (o' & l & Hm' & _ & _ & Hp & Hr & Hdn).
  rewrite Hm in Hm'. injection Hm' as <-.
  unfold entry_of in Hg. rewrite Hp, Hr, Hdn in Hg. rewrite Hp in Hd.
  exists env, o, che, chw. do 6 (split; [assumption|]).
  split; [|split; [|split]]; intros ->.
  - rewrite Hm in Hms. injection Hms as <-. auto.
  - rewrite Hm in Hmn. injection Hmn as <-. auto.
  - rewrite Hm in Hme. injection Hme as <-. auto.
  - rewrite Hm in Hmw. injection Hmw as <-. auto.
Qed.

(** C9 (defect in the code): the claim is that for every state east and
    west change the column only when the map cell next to the taxi in that
    direction is ':'.  [encode] packs the passenger index with radix 5, so
    with L = 5 the tuple (0,1,0,1), which has a wall to its east
    (desc[1,4] is '|'), shares index 26 with (0,0,5,1), which has an open
    passage to its east: the list the table holds for east at index 26,
    the index [decode] reads as (0,1,0,1), starts with an outcome whose
    successor 51 [decode] reads as (0,2,0,1), one column further east. *)
Theorem east_table_shared_index :
  supported 5 /\ valid_tuple 5 0 1 0 1 /\
  exists env,
    init 5 = Ok env /\
    desc_at (env_desc env) (1 + 0) (2 * 1 + 2) = Ok "|"%char /\
    table_get (env_P env) (encode 5 0 1 0 1) 2
    = Some [(1%Q, 51, -1, false); (1%Q, 26, -1, false)] /\
    decode 5 (encode 5 0 1 0 1) = Ok (0, 1, 0, 1) /\
    decode 5 51 = Ok (0, 2, 0, 1).
Proof.
  split; [apply supported_cases; lia|]. split; [unfold valid_tuple; lia|].
  destruct shared_indices_L5 as (env & Hi & _ & _ & Hwall & H26 & _).
  exists env. split; [assumption|]. split; [exact Hwall|].
  split; [assumption|]. split; reflexivity.
Qed.

(** ** C10: the destination is never changed *)

(** C10: for every supported L, every valid tuple and every action a in
    [0,5], the successor the builder records at the tuple's index is the
    encoding of the new row, column and passenger index with the
    destination index of the source tuple; and every entry held at that
    index, whichever tuple put it there, has a successor whose destination
    digit is that same destination index. *)
Theorem destination_preserved nL row col passidx destidx a :
  supported nL -> valid_tuple nL row col passidx destidx -> 0 <= a <= 5 ->
  exists env o l,
    init nL = Ok env /\
    move nL (env_desc env) (env_locs env) row col passidx destidx a = Ok o /\
    table_get (env_P env) (encode nL row col passidx destidx) a = Some l /\
    (1%Q, encode nL (newrow o) (newcol o) (newpassidx o) destidx, reward o, done o) ∈ l /\
    encode nL (newrow o) (newcol o) (newpassidx o) destidx mod nL = destidx /\
    (forall p ns r d, (p, ns, r, d) ∈ l -> ns mod nL = destidx).
Proof.
  intros HL Hv Ha.
  destruct (init_records nL HL) as (env & Hi & Hrec & Hall).
  destruct (Hrec row col passidx destidx a Hv Ha) as (o & l & Hm & Hl & Hin).
  destruct (init_layout _ _ Hi) as [_ HnS].
  pose proof Hv as (Hr & Hc & Hp & Hd).
  assert (HnL : 2 <= nL <= 8) by (apply supported_cases in HL; lia).
  assert (Hmod : forall x, (x * nL + destidx) mod nL = destidx)
    by (intros x; apply encode_divmod; lia).
  exists env, o, l. do 3 (split; [assumption|]).
  split; [exact Hin|]. split; [rewrite encode_eq; apply Hmod|].
  intros p ns r d He.
  assert (Hs : 0 <= encode nL row col passidx destidx < env_nS env).
  { rewrite HnS, encode_eq. unfold nS, nR, nC.
    apply supported_cases in HL.
    destruct HL as [->|[->|[->|[->| ->]]]]; simpl; lia. }
  destruct (Hall _ a Hs Ha) as (l' & Hl' & Hprop).
  rewrite Hl in Hl'. injection Hl' as <-.
  destruct (Hprop p ns r d He) as [_ ->]. rewrite encode_eq. apply Hmod.
Qed.

Lemma destination_preserved_witness :
  supported 5 /\ valid_tuple 5 0 1 0 0 /\ 0 <= 5 <= 5 /\
  exists env o l,
    init 5 = Ok env /\
    move 5 (env_desc env) (env_locs env) 0 1 0 0 5 = Ok o /\
    table_get (env_P env) (encode 5 0 1 0 0) 5 = Some l /\
    (1%Q, encode 5 (newrow o) (newcol o) (newpassidx o) 0, reward o, done o) ∈ l /\
    encode 5 (newrow o) (newcol o) (newpassidx o) 0 mod 5 = 0 /\
    (forall p ns r d, (p, ns, r, d) ∈ l -> ns mod 5 = 0).
Proof.
  assert (H1 : supported 5) by (apply supported_cases; lia).
  assert (H2 : valid_tuple 5 0 1 0 0) by (unfold valid_tuple; lia).
  assert (H3 : 0 <= 5 <= 5) by lia.
  split; [exact H1|]. split; [exact H2|]. split; [exact H3|].
  exact (destination_preserved 5 0 1 0 0 5 H1 H2 H3).
Defined.

(** * Further properties of the code *)

(** ** [encode] and [decode] *)

(** X1: for any location count, [decode] returns the tuple that [encode]
    packed as long as the row, the column and the passenger index are in
    [0,4] and the destination index is non-negative and below the
    location count. *)
Theorem decode_encode_roundtrip nL row col passidx destidx :
  0 <= row < 5 -> 0 <= col < 5 -> 0 <= passidx < 5 -> 0 <= destidx < nL ->
  decode nL (encode nL row col passidx destidx) = Ok (row, col, passidx, destidx).
Proof.
  intros Hr Hc Hp Hd. apply decode_encode_radix5; assumption.
Qed.

Lemma decode_encode_roundtrip_witness :
  0 <= 4 < 5 /\ 0 <= 3 < 5 /\ 0 <= 4 < 5 /\ 0 <= 7 < 8 /\
  decode 8 (encode 8 4 3 4 7) = Ok (4, 3, 4, 7).
Proof.
  assert (H1 : 0 <= 4 < 5) by lia.
  assert (H2 : 0 <= 3 < 5) by lia.
  assert (H3 : 0 <= 7 < 8) by lia.
  split; [exact H1|]. split; [exact H2|]. split; [exact H1|]. split; [exact H3|].
  exact (decode_encode_roundtrip 8 4 3 4 7 H1 H2 H1 H3).
Defined.

(** X2: whatever [decode] returns encodes back to the index it was given,
    with row, column and passenger index in [0,4] and the destination index
    below the location count; so with five or more locations [decode]
    never reports the passenger in the taxi. *)
Theorem encode_decode_roundtrip nL i row col passidx destidx :
  0 < nL -> decode nL i = Ok (row, col, passidx, destidx) ->
  encode nL row col passidx destidx = i /\
  0 <= row <= 4 /\ 0 <= col <= 4 /\ 0 <= passidx <= 4 /\ 0 <= destidx < nL /\
  (5 <= nL -> passidx <> nL).
Proof.
  intros Hn Hd.
  destruct (decode_Ok_range nL i row col passidx destidx Hn Hd) as (Hr & Hc & Hp & Hdd & He).
  split; [assumption|]. lia.
Qed.

Lemma encode_decode_roundtrip_witness :
  0 < 5 /\ decode 5 624 = Ok (4, 4, 4, 4) /\
  encode 5 4 4 4 4 = 624 /\
  0 <= 4 <= 4 /\ 0 <= 4 <= 4 /\ 0 <= 4 <= 4 /\ 0 <= 4 < 5 /\
  (5 <= 5 -> 4 <> 5).
Proof.
  assert (H0 : 0 < 5) by lia.
  assert (H1 : decode 5 624 = Ok (4, 4, 4, 4)) by reflexivity.
  split; [exact H0|]. split; [exact H1|].
  exact (encode_decode_roundtrip 5 624 4 4 4 4 H0 H1).
Defined.

(** X3: for any positive location count, [decode] returns exactly on the
    indices from 0 to 125 * nL - 1; on every other index, negative ones
    included, it fails its assertion. *)
Theorem decode_domain nL i :
  0 < nL ->
  ((exists t, decode nL i = Ok t) <-> 0 <= i < 125 * nL) /\
  (~ 0 <= i < 125 * nL -> decode nL i = Raise AssertionError).
Proof.
  intros Hn. split; [apply decode_Ok_iff, Hn|].
  intros Hout. destruct (decode nL i) as [t|e] eqn:E.
  - exfalso. apply Hout, (decode_Ok_iff nL i Hn). eauto.
  - revert E. unfold decode. destruct (Z.eqb_spec nL 0); [lia|].
    destruct (_ && _); [discriminate|]. intros [= <-]. reflexivity.
Qed.

Lemma decode_domain_witness :
  0 < 5 /\
  ((exists t, decode 5 (-1) = Ok t) <-> 0 <= -1 < 125 * 5) /\
  (~ 0 <= -1 < 125 * 5 -> decode 5 (-1) = Raise AssertionError).
Proof.
  assert (H0 : 0 < 5) by lia.
  split; [exact H0|]. exact (decode_domain 5 (-1) H0).
Defined.

(** ** The constructor *)

(** X4: the constructor returns an environment exactly for the location
    counts 2, 4, 5, 6 and 8. *)
Theorem init_Ok_iff_supported nL :
  (exists env, init nL = Ok env) <-> supported nL.
Proof.
  split.
  - intros [env Hi]. apply layout_supported.
    destruct (init_layout _ _ Hi) as [Hl _]. rewrite Hl. eauto.
  - intros H. destruct (table_sound_supported nL H) as (env & Hi & _). eauto.
Qed.

(** The index of a visited tuple is a key of the table. *)
Lemma encode_in_table nL row col passidx destidx :
  supported nL -> valid_tuple nL row col passidx destidx ->
  0 <= encode nL row col passidx destidx < nS nL.
Proof.
  intros HL (Hr & Hc & Hp & Hd). rewrite encode_eq. unfold nS, nR, nC.
  apply supported_cases in HL.
  destruct HL as [->|[->|[->|[->| ->]]]]; simpl; lia.
Qed.

Lemma loc_index_from_bound locs : forall base x k,
  loc_index_from base x locs = Ok k -> base <= k < base + Z.of_nat (length locs).
Proof.
  induction locs as [|y locs IH]; intros base x k; simpl; [discriminate|].
  destruct (loc_eqb x y).
  - intros [= <-]. lia.
  - intros H%IH. lia.
Qed.

Ltac shape_done :=
  unfold valid_tuple, maxR, maxC, nR, nC in *;
  repeat match goal with
         | |- _ /\ _ => split
         | |- _ <-> _ => split
         | |- _ = _ -> _ => intro
         | |- _ <= _ -> _ => intro
         end;
  try lia; try congruence.

(** Each step of the builder, on a visited tuple: it throws nothing, and
    what it leaves. *)
Lemma move_total_shape nL desc locs row col p d a :
  layout nL = Some (desc, locs) -> valid_tuple nL row col p d -> 0 <= a <= 5 ->
  exists o,
    move nL desc locs row col p d a = Ok o /\
    valid_tuple nL (newrow o) (newcol o) (newpassidx o) d /\
    (reward o = -1 \/ reward o = -10 \/ reward o = 20) /\
    (done o = true <-> reward o = 20) /\
    (done o = true -> a = 5 /\ newrow o = row /\ newcol o = col /\ newpassidx o = p) /\
    (a <= 3 -> reward o = -1).
Proof.
  intros Hlay Hv Ha.
  pose proof Hv as (Hr & Hc & Hp & Hd).
  destruct (layout_locs _ _ _ Hlay) as [Hnd Hlen].
  destruct (layout_desc _ _ _ row col Hlay Hr Hc) as ([che He] & [chw Hw] & _).
  assert (Hcases : a = 0 \/ a = 1 \/ a = 2 \/ a = 3 \/ a = 4 \/ a = 5) by lia.
  destruct Hcases as [->|[->|[->|[->|[->| ->]]]]].
  - eexists. split; [apply move_south|].
    cbn [newrow newcol newpassidx reward done]. shape_done.
  - eexists. split; [apply move_north|].
    cbn [newrow newcol newpassidx reward done]. shape_done.
  - eexists. split; [apply (move_east _ _ _ _ _ _ _ che He)|].
    cbn [newrow newcol newpassidx reward done]. destruct (is_colon che); shape_done.
  - eexists. split; [apply (move_west _ _ _ _ _ _ _ chw Hw)|].
    cbn [newrow newcol newpassidx reward done]. destruct (is_colon chw); shape_done.
  - destruct (Z.lt_ge_cases p nL) as [Hlt|Hge].
    + assert (Hsome : is_Some (locs !! Z.to_nat p))
        by (apply lookup_lt_is_Some; lia).
      destruct Hsome as [pl Hpl].
      assert (Hget : getitem locs p = Ok pl)
        by (apply getitem_Ok; [lia|assumption]).
      eexists. split; [apply (move_pickup_waiting _ _ _ _ _ _ _ pl Hlt Hget)|].
      destruct (loc_eqb (row, col) pl);
        cbn [newrow newcol newpassidx reward done]; shape_done.
    + eexists. split; [apply (move_pickup_in_taxi _ _ _ _ _ _ _ Hge)|].
      cbn [newrow newcol newpassidx reward done]. shape_done.
  - destruct (valid_locs_dest _ _ _ d Hlay Hd) as [dl Hdl].
    assert (Hget : getitem locs d = Ok dl)
      by (apply getitem_Ok; [lia|assumption]).
    rewrite (move_dropoff _ _ _ _ _ _ _ dl Hget).
    destruct (loc_eqb (row, col) dl && (p =? nL)).
    + eexists. split; [reflexivity|].
      cbn [newrow newcol newpassidx reward done]. shape_done.
    + destruct (loc_in (row, col) locs && (p =? nL)) eqn:Ein.
      * apply andb_true_iff in Ein as [Hin%loc_in_elem _].
        apply list_elem_of_lookup in Hin as [k Hk].
        pose proof (loc_index_from_spec locs 0 (row, col) k Hnd Hk) as Hidx.
        pose proof (loc_index_from_bound _ _ _ _ Hidx) as Hb.
        unfold loc_index. rewrite Hidx.
        eexists. split; [reflexivity|].
        cbn [newrow newcol newpassidx reward done]. shape_done.
      * eexists. split; [reflexivity|].
        cbn [newrow newcol newpassidx reward done]. shape_done.
Qed.

(** X5: for every supported location count, every visited tuple and each
    of the six actions, the step of the builder throws nothing and leaves
    a tuple within the same bounds, so that the index it writes at and the
    successor index it records are both keys of the table. *)
Theorem move_stays_valid nL row col passidx destidx a :
  supported nL -> valid_tuple nL row col passidx destidx -> 0 <= a <= 5 ->
  exists desc locs o,
    layout nL = Some (desc, locs) /\
    move nL desc locs row col passidx destidx a = Ok o /\
    valid_tuple nL (newrow o) (newcol o) (newpassidx o) destidx /\
    0 <= encode nL row col passidx destidx < nS nL /\
    0 <= encode nL (newrow o) (newcol o) (newpassidx o) destidx < nS nL.
Proof.
  intros HL Hv Ha.
  destruct (proj2 (layout_supported nL) HL) as [[desc locs] Hlay].
  destruct (move_total_shape _ _ _ _ _ _ _ a Hlay Hv Ha) as (o & Hm & Hvo & _).
  exists desc, locs, o. do 3 (split; [assumption|]).
  split; apply encode_in_table; assumption.
Qed.

Lemma move_stays_valid_witness :
  supported 8 /\ valid_tuple 8 2 4 8 0 /\ 0 <= 5 <= 5 /\
  exists desc locs o,
    layout 8 = Some (desc, locs) /\
    move 8 desc locs 2 4 8 0 5 = Ok o /\
    valid_tuple 8 (newrow o) (newcol o) (newpassidx o) 0 /\
    0 <= encode 8 2 4 8 0 < nS 8 /\
    0 <= encode 8 (newrow o) (newcol o) (newpassidx o) 0 < nS 8.
Proof.
  assert (H1 : supported 8) by (apply supported_cases; lia).
  assert (H2 : valid_tuple 8 2 4 8 0) by (unfold valid_tuple; lia).
  assert (H3 : 0 <= 5 <= 5) by lia.
  split; [exact H1|]. split; [exact H2|]. split; [exact H3|].
  exact (move_stays_valid 8 2 4 8 0 5 H1 H2 H3).
Defined.

(** ** The loops of the constructor *)

Lemma bind_Ok {A B} (m : result A) (f : A -> result B) b :
  m ≫= f = Ok b -> exists a, m = Ok a /\ f a = Ok b.
Proof. destruct m as [x|e]; [eauto|discriminate]. Qed.


Lemma for_each_app {S A} (f : S -> A -> result S) l1 l2 st :
  for_each f (l1 ++ l2) st = for_each f l1 st ≫= for_each f l2.
Proof.
  revert st. induction l1 as [|x l1 IH]; intros st; simpl; [reflexivity|].
  destruct (f st x) as [st'|e]; [apply IH|reflexivity].
Qed.

Lemma for_each_ext {S A} (f g : S -> A -> result S) l st :
  (forall st x, f st x = g st x) -> for_each f l st = for_each g l st.
Proof.
  intros H. revert st. induction l as [|x l IH]; intros st; simpl; [reflexivity|].
  rewrite H. destruct (g st x); [apply IH|reflexivity].
Qed.

Lemma for_each_bind {S A B} (f : S -> B -> result S) (g : A -> list B) l st :
  for_each f (l ≫= g) st = for_each (fun st x => for_each f (g x) st) l st.
Proof.
  revert st. induction l as [|x l IH]; intros st; [reflexivity|].
  change ((x :: l) ≫= g) with (g x ++ l ≫= g).
  rewrite for_each_app. simpl.
  destruct (for_each f (g x) st) as [st'|e]; [apply IH|reflexivity].
Qed.

Lemma fill_flat nL desc locs st :
  fill nL desc locs st = for_each (visit_tuple nL desc locs) (all_tuples nL) st.
Proof.
  unfold fill, all_tuples.
  rewrite for_each_bind. apply for_each_ext. intros st1 row.
  rewrite for_each_bind. apply for_each_ext. intros st2 col.
  rewrite for_each_bind. apply for_each_ext. intros st3 passidx.
  rewrite for_each_bind. apply for_each_ext. intros st4 destidx.
  simpl. destruct (visit nL desc locs st4 row col passidx destidx); reflexivity.
Qed.

(** A loop invariant indexed by the elements already visited. *)
Lemma for_each_invariant {S A} (f : S -> A -> result S) (I : list A -> S -> Prop) l :
  forall st0 st,
  I [] st0 ->
  (forall pre x suf st st',
      l = pre ++ x :: suf -> I pre st -> f st x = Ok st' -> I (pre ++ [x]) st') ->
  for_each f l st0 = Ok st -> I l st.
Proof.
  intros st0 st H0 Hstep.
  assert (Hgen : forall suf pre st1, l = pre ++ suf -> I pre st1 ->
            for_each f suf st1 = Ok st -> I l st).
  { induction suf as [|x suf IH]; intros pre st1 Hl Hpre Hrun; simpl in Hrun.
    - injection Hrun as <-. rewrite Hl, app_nil_r. exact Hpre.
    - destruct (f st1 x) as [st2|e] eqn:E; [|discriminate].
      apply (IH (pre ++ [x]) st2).
      + rewrite Hl, <- app_assoc. reflexivity.
      + apply (Hstep pre x suf st1 st2); assumption.
      + exact Hrun. }
  apply (Hgen l [] st0); auto.
Qed.

Lemma table_append_spec P state a e P' :
  table_append P state a e = Ok P' ->
  forall s a',
    table_get P' s a'
    = if decide (s = state /\ a' = a)
      then (fun l => l ++ [e]) <$> table_get P s a'
      else table_get P s a'.
Proof.
  unfold table_append.
  destruct (P !! state) as [row|] eqn:Es; [|discriminate].
  destruct (row !! a) as [l|] eqn:Ea; [|discriminate].
  intros [= <-] s a'. unfold table_get.
  destruct (decide (s = state /\ a' = a)) as [[-> ->]|Hne].
  - rewrite lookup_insert_eq, Es. simpl. rewrite lookup_insert_eq, Ea. reflexivity.
  - destruct (decide (s = state)) as [->|Hs].
    + rewrite lookup_insert_eq, Es. simpl.
      rewrite lookup_insert_ne by (intros ->; tauto). reflexivity.
    + rewrite lookup_insert_ne by congruence. reflexivity.
Qed.

(** The six appends of one visit. *)
Lemma actions_loop nL desc locs row col p d P P' :
  for_each (fun P a =>
              o ← move nL desc locs row col p d a;
              table_append P (encode nL row col p d) a (entry_of nL d o))
           (range nA) P = Ok P' ->
  forall s a, 0 <= a <= 5 ->
    table_get P' s a
    = (fun l => l ++ (if encode nL row col p d =? s
                      then entries_of nL desc locs a [(row, col, p, d)] else []))
      <$> table_get P s a.
Proof.
  intros Hrun.
  pose (J := fun (pre : list Z) (Pk : gmap Z (gmap Z (list entry))) =>
    forall s a,
      table_get Pk s a
      = (fun l => l ++ (if (encode nL row col p d =? s) && bool_decide (a ∈ pre)
                        then entries_of nL desc locs a [(row, col, p, d)] else []))
        <$> table_get P s a).
  assert (HJ : J (range nA) P').
  { apply (fun H0 Hs => for_each_invariant _ J (range nA) P P' H0 Hs Hrun).
    - intros s a. rewrite andb_false_r.
      destruct (table_get P s a) as [l|]; simpl; [rewrite app_nil_r|]; reflexivity.
    - intros pre x suf Pk Pk' Hl HJ Hstep s a.
      apply bind_Ok in Hstep as (o & Hmove & Happ).
      rewrite (table_append_spec _ _ _ _ _ Happ s a), (HJ s a).
      assert (Hnd : NoDup (pre ++ x :: suf)) by (rewrite <- Hl; apply NoDup_seqZ).
      apply NoDup_app in Hnd as (_ & Hnotin & _).
      assert (Hx : x ∉ pre) by (intros Hx; apply (Hnotin x Hx); left).
      destruct (table_get P s a) as [l|]; [|destruct (decide _); reflexivity].
      simpl. destruct (decide (s = encode nL row col p d /\ a = x)) as [[-> ->]|Hne].
      + rewrite Z.eqb_refl. simpl.
        rewrite (bool_decide_eq_false_2 _ Hx).
        rewrite (bool_decide_eq_true_2 (x ∈ pre ++ [x]))
          by (apply elem_of_app; right; apply list_elem_of_singleton; reflexivity).
        unfold entries_of. simpl. rewrite Hmove. simpl.
        rewrite app_nil_r. reflexivity.
      + destruct (Z.eqb_spec (encode nL row col p d) s) as [Es|Es]; [|reflexivity].
        simpl. assert (Hax : a <> x) by (intros ->; apply Hne; auto).
        rewrite (bool_decide_ext (a ∈ pre ++ [x]) (a ∈ pre)); [reflexivity|].
        rewrite elem_of_app, list_elem_of_singleton. tauto. }
  intros s a Ha. rewrite (HJ s a).
  rewrite (bool_decide_eq_true_2 (a ∈ range nA)) by (apply elem_of_range; unfold nA; lia).
  rewrite andb_true_r. reflexivity.
Qed.

Lemma visit_table nL desc locs isd P row col p d isd' P' :
  visit nL desc locs (isd, P) row col p d = Ok (isd', P') ->
  forall s a, 0 <= a <= 5 ->
    table_get P' s a
    = (fun l => l ++ (if encode nL row col p d =? s
                      then entries_of nL desc locs a [(row, col, p, d)] else []))
      <$> table_get P s a.
Proof.
  unfold visit. intros H.
  apply bind_Ok in H as (isd1 & _ & H).
  apply bind_Ok in H as (P1 & Hloop & H).
  injection H as _ <-. apply (actions_loop _ _ _ _ _ _ _ _ _ Hloop).
Qed.

Lemma fmap_fst_pair {A B} (g : A -> B) (l : list A) :
  ((fun x => (x, g x)) <$> l).*1 = l.
Proof. induction l as [|x l IH]; [reflexivity|]. simpl. f_equal. exact IH. Qed.

Lemma empty_table_get n s a :
  0 <= s < n -> 0 <= a <= 5 -> table_get (empty_table n) s a = Some [].
Proof.
  intros Hs Ha. unfold table_get, empty_table.
  rewrite (elem_of_list_to_map_1 _ s
             (list_to_map ((fun a => (a, [])) <$> range nA))).
  - unfold mbind, option_bind. apply elem_of_list_to_map_1.
    + rewrite fmap_fst_pair. apply NoDup_seqZ.
    + apply list_elem_of_fmap. exists a. split; [reflexivity|].
      apply elem_of_range. unfold nA. lia.
  - rewrite fmap_fst_pair. apply NoDup_seqZ.
  - apply list_elem_of_fmap. exists s. split; [reflexivity|].
    apply elem_of_range. assumption.
Qed.

Lemma filter_snoc {A} (f : A -> bool) l x :
  List.filter f (l ++ [x]) = List.filter f l ++ (if f x then [x] else []).
Proof. rewrite List.filter_app. simpl. destruct (f x); reflexivity. Qed.

Lemma entries_of_app nL desc locs a ts1 ts2 :
  entries_of nL desc locs a (ts1 ++ ts2)
  = entries_of nL desc locs a ts1 ++ entries_of nL desc locs a ts2.
Proof. unfold entries_of. apply flat_map_app. Qed.

(** The table after the loops, whenever they run to the end. *)
Lemma fill_table nL desc locs isd0 n isd P :
  fill nL desc locs (isd0, empty_table n) = Ok (isd, P) ->
  forall s a, 0 <= s < n -> 0 <= a <= 5 ->
    table_get P s a = Some (entries_at nL desc locs s a).
Proof.
  rewrite fill_flat. intros Hrun.
  pose (I := fun (pre : list (Z * Z * Z * Z))
                 (st : list Q * gmap Z (gmap Z (list entry))) =>
    forall s a, 0 <= s < n -> 0 <= a <= 5 ->
      table_get st.2 s a
      = Some (entries_of nL desc locs a
                (List.filter (fun t : Z * Z * Z * Z =>
                                let '(row, col, passidx, destidx) := t in
                                encode nL row col passidx destidx =? s) pre))).
  assert (HI : I (all_tuples nL) (isd, P)).
  { apply (fun H0 Hs => for_each_invariant _ I (all_tuples nL) _ _ H0 Hs Hrun).
    - intros s a Hs Ha. cbn [snd]. rewrite empty_table_get by assumption. reflexivity.
    - intros pre [[[row col] p] d] suf [isd1 P1] [isd2 P2] _ HI Hstep s a Hs Ha.
      change (visit nL desc locs (isd1, P1) row col p d = Ok (isd2, P2)) in Hstep.
      specialize (HI s a Hs Ha). cbn [snd] in HI. cbn [snd].
      rewrite (visit_table _ _ _ _ _ _ _ _ _ _ _ Hstep s a Ha), HI.
      cbn [fmap option_fmap option_map]. f_equal.
      rewrite filter_snoc, entries_of_app.
      destruct (encode nL row col p d =? s); [reflexivity|].
      rewrite !app_nil_r. reflexivity. }
  intros s a Hs Ha. apply (HI s a Hs Ha).
Qed.

Lemma init_tabulate nL env :
  init nL = Ok env ->
  exists raw,
    tabulate nL = Ok (env_locs env, env_desc env, raw, env_P env) /\
    env_isd env = (fun x => Qred (x / Qsum raw)) <$> raw /\
    env_nS env = nS nL.
Proof.
  unfold init. destruct (tabulate nL) as [[[[locs desc] raw] P]|]; [|discriminate].
  simpl. intros [= <-]. simpl. eauto.
Qed.

Lemma tabulate_fill nL locs desc raw P :
  tabulate nL = Ok (locs, desc, raw, P) ->
  layout nL = Some (desc, locs) /\
  fill nL desc locs (replicate (Z.to_nat (nS nL)) 0%Q, empty_table (nS nL)) = Ok (raw, P).
Proof.
  unfold tabulate. destruct (layout nL) as [[MAP locs']|]; [|discriminate].
  destruct (fill nL MAP locs' _) as [[isd P']|] eqn:E; simpl; [|discriminate].
  intros [= <- <- <- <-]. auto.
Qed.

(** The table [init] returns. *)
Lemma init_table_content nL env s a :
  init nL = Ok env -> 0 <= s < nS nL -> 0 <= a <= 5 ->
  table_get (env_P env) s a
  = Some (entries_at nL (env_desc env) (env_locs env) s a).
Proof.
  intros Hi Hs Ha.
  destruct (init_tabulate _ _ Hi) as (raw & Htab & _).
  destruct (tabulate_fill _ _ _ _ _ Htab) as [_ Hfill].
  apply (fill_table _ _ _ _ _ _ _ Hfill s a Hs Ha).
Qed.

(** ** The counts in [isd] *)

Lemma elem_of_all_tuples nL row col p d :
  (row, col, p, d) ∈ all_tuples nL -> valid_tuple nL row col p d.
Proof.
  unfold all_tuples. intros H.
  apply list_elem_of_bind in H as (r & H & Hr%elem_of_range).
  apply list_elem_of_bind in H as (c & H & Hc%elem_of_range).
  apply list_elem_of_bind in H as (p' & H & Hp%elem_of_range).
  apply list_elem_of_bind in H as (d' & H & Hd%elem_of_range).
  apply list_elem_of_singleton in H. injection H as -> -> -> ->.
  unfold valid_tuple. lia.
Qed.

Lemma array_incr_spec isd state isd' :
  0 <= state -> array_incr isd state = Ok isd' ->
  exists x, isd !! Z.to_nat state = Some x /\
            isd' = <[Z.to_nat state := (x + 1)%Q]> isd.
Proof.
  intros Hs. unfold array_incr, py_index.
  destruct ((0 <=? state) && (state <? Z.of_nat (length isd))).
  - cbn [mbind result_bind].
    destruct (isd !! Z.to_nat state) as [x|]; [|discriminate].
    intros [= <-]. eauto.
  - replace (state <? 0) with false by (symmetry; apply Z.ltb_ge; lia).
    rewrite andb_false_r. discriminate.
Qed.

Lemma visit_isd nL desc locs isd P row col p d isd' P' :
  0 <= encode nL row col p d ->
  visit nL desc locs (isd, P) row col p d = Ok (isd', P') ->
  if (p <? nL) && negb (p =? d)
  then exists x, isd !! Z.to_nat (encode nL row col p d) = Some x /\
                 isd' = <[Z.to_nat (encode nL row col p d) := (x + 1)%Q]> isd
  else isd' = isd.
Proof.
  intros Hs. unfold visit. intros H.
  apply bind_Ok in H as (isd1 & Hisd & H).
  apply bind_Ok in H as (P1 & _ & H). injection H as <- _.
  destruct ((p <? nL) && negb (p =? d)).
  - apply (array_incr_spec _ _ _ Hs Hisd).
  - injection Hisd as <-. reflexivity.
Qed.

Lemma Qsum_replicate n : (Qsum (replicate n 0%Q) == 0)%Q.
Proof.
  induction n as [|n IH]; [reflexivity|].
  change (0 + Qsum (replicate n 0%Q) == 0)%Q. rewrite IH. reflexivity.
Qed.

Lemma Qsum_insert l : forall k x y,
  l !! k = Some x -> (Qsum (<[k := y]> l) == Qsum l - x + y)%Q.
Proof.
  induction l as [|z l IH]; intros k x y Hk; [discriminate|].
  destruct k as [|k]; simpl in Hk.
  - injection Hk as ->. change (y + Qsum l == x + Qsum l - x + y)%Q. ring.
  - change (z + Qsum (<[k := y]> l) == z + Qsum l - x + y)%Q.
    rewrite (IH k x y Hk). ring.
Qed.

Lemma Qsum_fmap_div l T :
  (Qsum ((fun x => Qred (x / T)) <$> l) == Qsum l / T)%Q.
Proof.
  induction l as [|z l IH].
  - change (0 == 0 / T)%Q. unfold Qdiv. ring.
  - change (Qred (z / T) + Qsum ((fun x => Qred (x / T)) <$> l) == (z + Qsum l) / T)%Q.
    rewrite IH, Qred_correct. unfold Qdiv. ring.
Qed.

Lemma waiting_in_snoc nL s pre row col p d :
  waiting_in nL s (pre ++ [(row, col, p, d)])
  = waiting_in nL s pre
    + (if (p <? nL) && negb (p =? d) && (encode nL row col p d =? s) then 1 else 0).
Proof.
  unfold waiting_in. rewrite filter_snoc, length_app.
  destruct ((p <? nL) && negb (p =? d) && (encode nL row col p d =? s)); simpl; lia.
Qed.

Lemma waiting_total_snoc nL pre row col p d :
  waiting_total nL (pre ++ [(row, col, p, d)])
  = waiting_total nL pre + (if (p <? nL) && negb (p =? d) then 1 else 0).
Proof.
  unfold waiting_total. rewrite filter_snoc, length_app.
  destruct ((p <? nL) && negb (p =? d)); simpl; lia.
Qed.

(** The counts in [isd] after the loops, whenever they run to the end. *)
Lemma fill_isd nL desc locs n P0 isd P :
  fill nL desc locs (replicate (Z.to_nat n) 0%Q, P0) = Ok (isd, P) ->
  (Qsum isd == inject_Z (waiting_total nL (all_tuples nL)))%Q /\
  forall s, 0 <= s < n ->
    exists x, isd !! Z.to_nat s = Some x /\
              (x == inject_Z (waiting_in nL s (all_tuples nL)))%Q.
Proof.
  rewrite fill_flat. intros Hrun.
  pose (I := fun (pre : list (Z * Z * Z * Z))
                 (st : list Q * gmap Z (gmap Z (list entry))) =>
    (Qsum st.1 == inject_Z (waiting_total nL pre))%Q /\
    forall s, 0 <= s < n ->
      exists x, st.1 !! Z.to_nat s = Some x /\
                (x == inject_Z (waiting_in nL s pre))%Q).
  apply (fun H0 Hs => for_each_invariant _ I (all_tuples nL) _ _ H0 Hs Hrun).
  - split; cbn [fst].
    + apply Qsum_replicate.
    + intros s Hs. exists 0%Q. split; [|reflexivity].
      apply lookup_replicate_2. lia.
  - intros pre [[[row col] p] d] suf [isd1 P1] [isd2 P2] Hl [Hsum Hall] Hstep.
    change (visit nL desc locs (isd1, P1) row col p d = Ok (isd2, P2)) in Hstep.
    cbn [fst] in Hsum, Hall.
    assert (Hv : valid_tuple nL row col p d).
    { apply elem_of_all_tuples. rewrite Hl. apply elem_of_app. right. left. }
    assert (Henc : 0 <= encode nL row col p d).
    { destruct Hv as (Hr & Hc & Hp & Hd). rewrite encode_eq. nia. }
    pose proof (visit_isd _ _ _ _ _ _ _ _ _ _ _ Henc Hstep) as Hisd.
    split; cbn [fst].
    + rewrite waiting_total_snoc.
      destruct ((p <? nL) && negb (p =? d)).
      * destruct Hisd as (x & Hx & ->). rewrite (Qsum_insert _ _ x _ Hx), Hsum.
        rewrite inject_Z_plus. ring.
      * subst isd2. rewrite Z.add_0_r. exact Hsum.
    + intros s Hs. rewrite waiting_in_snoc. destruct (Hall s Hs) as (y & Hy & Hyc).
      destruct ((p <? nL) && negb (p =? d)); cbn [andb].
      * destruct Hisd as (x & Hx & ->).
        destruct (Z.eqb_spec (encode nL row col p d) s) as [<-|Hne].
        -- rewrite Hx in Hy. injection Hy as <-.
           exists (x + 1)%Q. split.
           ++ apply list_lookup_insert_eq. eapply lookup_lt_Some. eassumption.
           ++ rewrite Hyc, inject_Z_plus. reflexivity.
        -- exists y. split.
           ++ rewrite list_lookup_insert_ne; [assumption|]. intros E.
              apply Hne. apply Z2Nat.inj; [exact Henc|lia|exact E].
           ++ rewrite Z.add_0_r. assumption.
      * subst isd2. exists y. split; [assumption|]. rewrite Z.add_0_r. assumption.
Qed.

(** The distribution [init] returns. *)
Lemma init_isd_content nL env s :
  init nL = Ok env -> 0 <= s < nS nL ->
  exists x,
    env_isd env !! Z.to_nat s = Some x /\
    (x == inject_Z (waiting_count nL s)
          / inject_Z (waiting_total nL (all_tuples nL)))%Q /\
    (0 < waiting_total nL (all_tuples nL) -> (Qsum (env_isd env) == 1)%Q).
Proof.
  intros Hi Hs.
  destruct (init_tabulate _ _ Hi) as (raw & Htab & Hisd & _).
  destruct (tabulate_fill _ _ _ _ _ Htab) as [_ Hfill].
  destruct (fill_isd _ _ _ _ _ _ _ Hfill) as [Hsum Hall].
  destruct (Hall s Hs) as (y & Hy & Hyc).
  exists (Qred (y / Qsum raw)). split; [|split].
  - rewrite Hisd, list_lookup_fmap, Hy. reflexivity.
  - rewrite Qred_correct, Hyc, Hsum. reflexivity.
  - intros Hpos. rewrite Hisd, Qsum_fmap_div, Hsum.
    apply Qmult_inv_r. intros E. change 0%Q with (inject_Z 0) in E.
    apply (proj1 (inject_Z_injective _ _)) in E. lia.
Qed.


Lemma entries_at_elem nL desc locs s a e :
  e ∈ entries_at nL desc locs s a ->
  exists row col p d o,
    valid_tuple nL row col p d /\ encode nL row col p d = s /\
    move nL desc locs row col p d a = Ok o /\ e = entry_of nL d o.
Proof.
  unfold entries_at, entries_of, tuples_at. intros H%list_elem_of_In.
  apply in_flat_map in H as ([[[row col] p] d] & Ht & He).
  apply filter_In in Ht as [Ht%list_elem_of_In%elem_of_all_tuples Henc%Z.eqb_eq].
  exists row, col, p, d.
  destruct (move nL desc locs row col p d a) as [o|]; [|destruct He].
  exists o. destruct He as [<-|[]]. auto.
Qed.

(** ** The content of the table *)

(** X13: for every supported location count, every state index s of the
    table and every action a, the list P[s][a] the constructor builds is
    the list of the entries, in the order of the loops, of the visited
    tuples whose encoding is s; so it is empty exactly when no visited
    tuple encodes to s. *)
Theorem table_is_comprehension nL s a :
  supported nL -> 0 <= s < nS nL -> 0 <= a <= 5 ->
  exists env,
    init nL = Ok env /\
    table_get (env_P env) s a
    = Some (entries_at nL (env_desc env) (env_locs env) s a).
Proof.
  intros HL Hs Ha.
  destruct (table_sound_supported nL HL) as (env & Hi & _).
  exists env. split; [assumption|]. apply init_table_content; assumption.
Qed.

Lemma table_is_comprehension_witness :
  supported 5 /\ 0 <= 25 < nS 5 /\ 0 <= 5 <= 5 /\
  exists env,
    init 5 = Ok env /\
    table_get (env_P env) 25 5
    = Some (entries_at 5 (env_desc env) (env_locs env) 25 5).
Proof.
  assert (H1 : supported 5) by (apply supported_cases; lia).
  assert (H2 : 0 <= 25 < nS 5) by (vm_compute; split; [discriminate|reflexivity]).
  assert (H3 : 0 <= 5 <= 5) by lia.
  split; [exact H1|]. split; [exact H2|]. split; [exact H3|].
  exact (table_is_comprehension 5 25 5 H1 H2 H3).
Defined.

(** X14: with 2 or 4 locations, looking up the table at the index of a
    visited tuple gives back exactly the one outcome the builder computed
    for that tuple and action. *)
Theorem table_lookup_is_move nL row col passidx destidx a :
  nL = 2 \/ nL = 4 -> valid_tuple nL row col passidx destidx -> 0 <= a <= 5 ->
  exists env o,
    init nL = Ok env /\
    move nL (env_desc env) (env_locs env) row col passidx destidx a = Ok o /\
    table_get (env_P env) (encode nL row col passidx destidx) a
    = Some [(1%Q, encode nL (newrow o) (newcol o) (newpassidx o) destidx,
             reward o, done o)].
Proof.
  intros HL Hv Ha.
  assert (Hchk : init_check nL (fun env => tuples_all nL (tuple_alone nL env)) = true)
    by (destruct HL as [->| ->]; vm_compute; reflexivity).
  destruct (init_check_spec _ _ Hchk) as (env & Hi & Hc).
  pose proof (tuples_all_spec _ _ Hc _ _ _ _ Hv) as Ht. unfold tuple_alone in Ht.
  pose proof (forallb_range _ _ Ht a ltac:(unfold nA; lia)) as Hta. cbv beta in Hta.
  destruct (move nL _ _ row col passidx destidx a) as [o|] eqn:Em; [|discriminate Hta].
  destruct (table_get _ _ a) as [[|e [|? ?]]|] eqn:Eg; try discriminate Hta.
  apply entry_eqb_eq in Hta as ->.
  exists env, o. split; [assumption|]. split; [exact Em|exact Eg].
Qed.

Lemma table_lookup_is_move_witness :
  (2 = 2 \/ 2 = 4) /\ valid_tuple 2 4 3 2 1 /\ 0 <= 5 <= 5 /\
  exists env o,
    init 2 = Ok env /\
    move 2 (env_desc env) (env_locs env) 4 3 2 1 5 = Ok o /\
    table_get (env_P env) (encode 2 4 3 2 1) 5
    = Some [(1%Q, encode 2 (newrow o) (newcol o) (newpassidx o) 1,
             reward o, done o)].
Proof.
  assert (H1 : 2 = 2 \/ 2 = 4) by (left; reflexivity).
  assert (H2 : valid_tuple 2 4 3 2 1) by (unfold valid_tuple; lia).
  assert (H3 : 0 <= 5 <= 5) by lia.
  split; [exact H1|]. split; [exact H2|]. split; [exact H3|].
  exact (table_lookup_is_move 2 4 3 2 1 5 H1 H2 H3).
Defined.

(** ** Rewards and termination in the table *)

(** X6: in the table built for a supported location count, every entry of
    every P[s][a] has reward -1, -10 or 20; it is terminal exactly when its
    reward is 20, which happens only for action 5 and with the successor
    equal to s; the four moves always have reward -1; and the successor is
    a state of the table. *)
Theorem table_entry_shape nL s a :
  supported nL -> 0 <= s < nS nL -> 0 <= a <= 5 ->
  exists env l,
    init nL = Ok env /\ table_get (env_P env) s a = Some l /\
    forall p ns r d, (p, ns, r, d) ∈ l ->
      (r = -1 \/ r = -10 \/ r = 20) /\
      (d = true <-> r = 20) /\
      (d = true -> a = 5 /\ ns = s) /\
      (a <= 3 -> r = -1) /\
      0 <= ns < nS nL /\ is_Some (env_P env !! ns).
Proof.
  intros HL Hs Ha.
  destruct (table_sound_supported nL HL) as (env & Hi & _).
  destruct (init_layout _ _ Hi) as [Hlay _].
  exists env, (entries_at nL (env_desc env) (env_locs env) s a).
  split; [assumption|]. split; [apply init_table_content; assumption|].
  intros p ns r d (row & col & p' & d' & o & Hv & Henc & Hm & He)%entries_at_elem.
  unfold entry_of in He. injection He as -> -> -> ->.
  destruct (move_total_shape _ _ _ _ _ _ _ a Hlay Hv Ha)
    as (o' & Hm' & Hvo & Hr & Hd & Hterm & Hmove).
  rewrite Hm in Hm'. injection Hm' as <-.
  split; [assumption|]. split; [assumption|]. split.
  { intros Hdone. destruct (Hterm Hdone) as (-> & -> & -> & ->). auto. }
  split; [assumption|].
  pose proof (encode_in_table _ _ _ _ _ HL Hvo) as Hns. split; [assumption|].
  pose proof (init_table_content nL env _ 0 Hi Hns ltac:(lia)) as Hrow.
  unfold table_get in Hrow.
  destruct (env_P env !! encode nL (newrow o) (newcol o) (newpassidx o) d') as [x|];
    [eauto|discriminate Hrow].
Qed.

Lemma table_entry_shape_witness :
  supported 5 /\ 0 <= 25 < nS 5 /\ 0 <= 5 <= 5 /\
  exists env l,
    init 5 = Ok env /\ table_get (env_P env) 25 5 = Some l /\
    forall p ns r d, (p, ns, r, d) ∈ l ->
      (r = -1 \/ r = -10 \/ r = 20) /\
      (d = true <-> r = 20) /\
      (d = true -> 5 = 5 /\ ns = 25) /\
      (5 <= 3 -> r = -1) /\
      0 <= ns < nS 5 /\ is_Some (env_P env !! ns).
Proof.
  assert (H1 : supported 5) by (apply supported_cases; lia).
  assert (H2 : 0 <= 25 < nS 5) by (vm_compute; split; [discriminate|reflexivity]).
  assert (H3 : 0 <= 5 <= 5) by lia.
  split; [exact H1|]. split; [exact H2|]. split; [exact H3|].
  exact (table_entry_shape 5 25 5 H1 H2 H3).
Defined.

(** ** The initial state distribution as built *)

Lemma waiting_total_supported nL :
  supported nL -> waiting_total nL (all_tuples nL) = 25 * nL * (nL - 1).
Proof.
  intros HL. apply supported_cases in HL.
  destruct HL as [->|[->|[->|[->| ->]]]]; vm_compute; reflexivity.
Qed.

(** X7: for every supported location count the distribution sums to 1 (in
    exact arithmetic), and its value at a state index s is the number of
    visited tuples with the passenger waiting away from the destination
    whose encoding is s, divided by 25 * L * (L - 1), the number of all
    such tuples. *)
Theorem isd_is_normalised_count nL s :
  supported nL -> 0 <= s < nS nL ->
  exists env x,
    init nL = Ok env /\ (Qsum (env_isd env) == 1)%Q /\
    env_isd env !! Z.to_nat s = Some x /\
    (x == inject_Z (waiting_count nL s) / inject_Z (25 * nL * (nL - 1)))%Q /\
    (0 <= x)%Q.
Proof.
  intros HL Hs.
  destruct (table_sound_supported nL HL) as (env & Hi & _).
  destruct (init_isd_content nL env s Hi Hs) as (x & Hx & Hxc & Hsum).
  rewrite (waiting_total_supported nL HL) in Hxc, Hsum.
  assert (Hpos : 0 < 25 * nL * (nL - 1)) by (apply supported_cases in HL; lia).
  assert (Hcount : 0 <= waiting_count nL s)
    by (unfold waiting_count, waiting_in; lia).
  exists env, x. split; [assumption|]. split; [apply Hsum, Hpos|].
  split; [assumption|]. split; [assumption|].
  rewrite Hxc. apply Qle_shift_div_l.
  - change 0%Q with (inject_Z 0). rewrite <- Zlt_Qlt. exact Hpos.
  - rewrite Qmult_0_l. change 0%Q with (inject_Z 0). rewrite <- Zle_Qle. exact Hcount.
Qed.

Lemma isd_is_normalised_count_witness :
  supported 6 /\ 0 <= 31 < nS 6 /\
  exists env x,
    init 6 = Ok env /\ (Qsum (env_isd env) == 1)%Q /\
    env_isd env !! Z.to_nat 31 = Some x /\
    (x == inject_Z (waiting_count 6 31) / inject_Z (25 * 6 * (6 - 1)))%Q /\
    (0 <= x)%Q.
Proof.
  assert (H1 : supported 6) by (apply supported_cases; lia).
  assert (H2 : 0 <= 31 < nS 6) by (vm_compute; split; [discriminate|reflexivity]).
  split; [exact H1|]. split; [exact H2|].
  exact (isd_is_normalised_count 6 31 H1 H2).
Defined.

(** ** The maps and the walls *)

Lemma layout_ok_supported nL desc locs :
  layout nL = Some (desc, locs) -> layout_ok desc locs = true.
Proof. intros H. each_layout H; vm_compute; reflexivity. Qed.

(** X8: each of the five maps has as many pairwise distinct locations as
    the location count, all inside the 5 x 5 grid, and the map shows a
    capital letter at the centre of a grid cell exactly when that cell is
    one of the locations. *)
Theorem layout_letters_are_locs nL row col :
  supported nL -> 0 <= row <= 4 -> 0 <= col <= 4 ->
  exists desc locs ch,
    layout nL = Some (desc, locs) /\
    Z.of_nat (length locs) = nL /\ NoDup locs /\
    (forall l : loc, l ∈ locs -> 0 <= l.1 <= 4 /\ 0 <= l.2 <= 4) /\
    desc_at desc (1 + row) (2 * col + 1) = Ok ch /\
    (is_letter ch = true <-> (row, col) ∈ locs).
Proof.
  intros HL Hr Hc.
  destruct (proj2 (layout_supported nL) HL) as [[desc locs] Hlay].
  destruct (layout_locs _ _ _ Hlay) as [Hnd Hlen].
  pose proof (layout_ok_supported _ _ _ Hlay) as Hok. unfold layout_ok in Hok.
  apply andb_true_iff in Hok as [[[_ _]%andb_true_iff Hgrid]%andb_true_iff Hcells].
  pose proof (forallb_range _ _ Hcells row ltac:(lia)) as H1. cbv beta in H1.
  pose proof (forallb_range _ _ H1 col ltac:(lia)) as H2. cbv beta in H2.
  destruct (desc_at desc (1 + row) (2 * col + 1)) as [ch|] eqn:Ech; [|discriminate H2].
  apply Bool.eqb_prop in H2.
  exists desc, locs, ch. do 3 (split; [assumption|]). split; [|split; [exact Ech|]].
  - intros l Hl. rewrite forallb_forall in Hgrid.
    specialize (Hgrid _ (proj1 (list_elem_of_In _ _) Hl)). cbv beta in Hgrid.
    rewrite !andb_true_iff, !Z.leb_le in Hgrid. lia.
  - rewrite H2. apply loc_in_elem.
Qed.

Lemma layout_letters_are_locs_witness :
  supported 8 /\ 0 <= 1 <= 4 /\ 0 <= 1 <= 4 /\
  exists desc locs ch,
    layout 8 = Some (desc, locs) /\
    Z.of_nat (length locs) = 8 /\ NoDup locs /\
    (forall l : loc, l ∈ locs -> 0 <= l.1 <= 4 /\ 0 <= l.2 <= 4) /\
    desc_at desc (1 + 1) (2 * 1 + 1) = Ok ch /\
    (is_letter ch = true <-> (1, 1) ∈ locs).
Proof.
  assert (H1 : supported 8) by (apply supported_cases; lia).
  assert (H2 : 0 <= 1 <= 4) by lia.
  split; [exact H1|]. split; [exact H2|]. split; [exact H2|].
  exact (layout_letters_are_locs 8 1 1 H1 H2 H2).
Defined.

(** X9: walls are two-sided.  For every supported location count and every
    visited tuple not in the last column, east from (row, col) reaches
    column col + 1 exactly when west from (row, col + 1) reaches column
    col; otherwise each stays where it is. *)
Theorem east_west_agree nL row col passidx destidx :
  supported nL -> valid_tuple nL row col passidx destidx -> col <= 3 ->
  exists desc locs o o',
    layout nL = Some (desc, locs) /\
    move nL desc locs row col passidx destidx 2 = Ok o /\
    move nL desc locs row (col + 1) passidx destidx 3 = Ok o' /\
    (newcol o = col + 1 <-> newcol o' = col) /\
    (newcol o = col \/ newcol o = col + 1) /\
    (newcol o' = col + 1 \/ newcol o' = col) /\
    newrow o = row /\ newrow o' = row.
Proof.
  intros HL Hv Hcol.
  destruct (proj2 (layout_supported nL) HL) as [[desc locs] Hlay].
  destruct Hv as (Hr & Hc & Hp & Hd).
  destruct (layout_desc _ _ _ row col Hlay Hr Hc) as ([ch He] & _).
  assert (Hw : desc_at desc (1 + row) (2 * (col + 1)) = Ok ch)
    by (replace (2 * (col + 1)) with (2 * col + 2) by lia; exact He).
  exists desc, locs. eexists. eexists. split; [exact Hlay|].
  split; [apply (move_east _ _ _ _ _ _ _ ch He)|].
  split; [apply (move_west _ _ _ _ _ _ _ ch Hw)|].
  cbn [newcol newrow]. unfold maxC, nC. destruct (is_colon ch); lia.
Qed.

Lemma east_west_agree_witness :
  supported 4 /\ valid_tuple 4 0 1 0 0 /\ 1 <= 3 /\
  exists desc locs o o',
    layout 4 = Some (desc, locs) /\
    move 4 desc locs 0 1 0 0 2 = Ok o /\
    move 4 desc locs 0 (1 + 1) 0 0 3 = Ok o' /\
    (newcol o = 1 + 1 <-> newcol o' = 1) /\
    (newcol o = 1 \/ newcol o = 1 + 1) /\
    (newcol o' = 1 + 1 \/ newcol o' = 1) /\
    newrow o = 0 /\ newrow o' = 0.
Proof.
  assert (H1 : supported 4) by (apply supported_cases; lia).
  assert (H2 : valid_tuple 4 0 1 0 0) by (unfold valid_tuple; lia).
  assert (H3 : 1 <= 3) by lia.
  split; [exact H1|]. split; [exact H2|]. split; [exact H3|].
  exact (east_west_agree 4 0 1 0 0 H1 H2 H3).
Defined.

(** ** Pickup followed by dropoff *)

(** The loop body on pickup and then dropoff, for a tuple with the taxi on
    the cell where the passenger waits: pickup computes the passenger in
    the taxi at cost 1, and dropoff on the tuple so changed computes
    reward 20 and done when that cell is the destination, and otherwise
    the passenger back where he waited, at cost 1. *)
Lemma pickup_dropoff_steps nL desc locs row col passidx destidx :
  layout nL = Some (desc, locs) ->
  0 <= passidx -> locs !! Z.to_nat passidx = Some (row, col) ->
  0 <= destidx <= nL - 1 ->
  exists o1 o2,
    move nL desc locs row col passidx destidx 4 = Ok o1 /\
    newrow o1 = row /\ newcol o1 = col /\ newpassidx o1 = nL /\
    reward o1 = -1 /\ done o1 = false /\
    move nL desc locs (newrow o1) (newcol o1) (newpassidx o1) destidx 5 = Ok o2 /\
    newrow o2 = row /\ newcol o2 = col /\
    (passidx = destidx -> reward o2 = 20 /\ done o2 = true) /\
    (passidx <> destidx ->
     newpassidx o2 = passidx /\ reward o2 = -1 /\ done o2 = false).
Proof.
  intros Hlay Hp0 Hpl Hd.
  destruct (layout_locs _ _ _ Hlay) as [Hnd Hlen].
  pose proof (lookup_lt_Some _ _ _ Hpl) as Hlt.
  assert (Hget : getitem locs passidx = Ok (row, col))
    by (apply getitem_Ok; assumption).
  pose proof (move_pickup_waiting nL desc locs row col passidx destidx (row, col)
                ltac:(lia) Hget) as M1.
  replace (loc_eqb (row, col) (row, col)) with true in M1
    by (symmetry; now apply loc_eqb_eq).
  destruct (valid_locs_dest _ _ _ destidx Hlay Hd) as [dl Hdl].
  assert (Hgetd : getitem locs destidx = Ok dl)
    by (apply getitem_Ok; [lia|assumption]).
  pose proof (move_dropoff nL desc locs row col nL destidx dl Hgetd) as M2.
  rewrite Z.eqb_refl, !andb_true_r in M2.
  assert (Hin : loc_in (row, col) locs = true)
    by (apply loc_in_elem, list_elem_of_lookup; eauto).
  rewrite Hin, (loc_index_spec locs (row, col) passidx Hnd Hp0 Hpl) in M2.
  assert (Hsame : loc_eqb (row, col) dl = true <-> passidx = destidx).
  { rewrite loc_eqb_eq. split.
    - intros <-. apply Z2Nat.inj; [lia|lia|].
      exact (NoDup_lookup _ _ _ _ Hnd Hpl Hdl).
    - intros <-. rewrite Hpl in Hdl. now injection Hdl. }
  destruct (loc_eqb (row, col) dl); cbn [mbind result_bind] in M2;
    (eexists; eexists; split; [exact M1|]);
    cbn [newrow newcol newpassidx reward done];
    do 5 (split; [reflexivity|]); (split; [exact M2|]);
    cbn [newrow newcol newpassidx reward done];
    (split; [reflexivity|]); (split; [reflexivity|]); split.
  - auto.
  - intros Hne. exfalso. apply Hne, Hsame. reflexivity.
  - intros He. apply Hsame in He. discriminate He.
  - auto.
Qed.

(** X10: with 2 or 4 locations and the taxi on the cell where the
    passenger waits, the table's only outcome for pickup leads, at cost 1,
    to the state with the passenger in the taxi; in that state the table's
    only outcome for dropoff ends the episode with reward 20 when the
    cell is the destination, and otherwise leads back, at cost 1, to the
    state the pickup started from.  [decode] reads each of these states as
    the tuple meant. *)
Theorem pickup_then_dropoff nL desc locs row col passidx destidx :
  nL = 2 \/ nL = 4 ->
  layout nL = Some (desc, locs) ->
  0 <= passidx -> locs !! Z.to_nat passidx = Some (row, col) ->
  0 <= destidx <= nL - 1 ->
  exists env,
    init nL = Ok env /\
    table_get (env_P env) (encode nL row col passidx destidx) 4
    = Some [(1%Q, encode nL row col nL destidx, -1, false)] /\
    decode nL (encode nL row col nL destidx) = Ok (row, col, nL, destidx) /\
    (passidx = destidx ->
     table_get (env_P env) (encode nL row col nL destidx) 5
     = Some [(1%Q, encode nL row col nL destidx, 20, true)]) /\
    (passidx <> destidx ->
     table_get (env_P env) (encode nL row col nL destidx) 5
     = Some [(1%Q, encode nL row col passidx destidx, -1, false)] /\
     decode nL (encode nL row col passidx destidx) = Ok (row, col, passidx, destidx)).
Proof.
  intros HL Hlay Hp0 Hpl Hd.
  destruct (layout_locs _ _ _ Hlay) as [_ Hlen].
  pose proof (lookup_lt_Some _ _ _ Hpl) as Hlt.
  (* the location is a cell of the grid *)
  pose proof (layout_ok_supported _ _ _ Hlay) as Hok. unfold layout_ok in Hok.
  apply andb_true_iff in Hok as [[_ Hgrid]%andb_true_iff _].
  rewrite forallb_forall in Hgrid.
  assert (Hl : In (row, col) locs) by (apply list_elem_of_In, list_elem_of_lookup; eauto).
  specialize (Hgrid _ Hl). cbv beta in Hgrid. cbn [fst snd] in Hgrid.
  rewrite !andb_true_iff, !Z.leb_le in Hgrid.
  assert (Hv1 : valid_tuple nL row col passidx destidx) by (unfold valid_tuple; lia).
  assert (Hv2 : valid_tuple nL row col nL destidx) by (unfold valid_tuple; lia).
  destruct (pickup_dropoff_steps nL desc locs row col passidx destidx Hlay Hp0 Hpl Hd)
    as (o1 & o2 & M1 & Hr1 & Hc1 & Hp1 & Hw1 & Hd1 & M2 & Hr2 & Hc2 & Hsame & Hother).
  rewrite Hr1, Hc1, Hp1 in M2.
  destruct (table_exact_small nL HL) as (env & Hi & Hex).
  destruct (init_layout _ _ Hi) as [Hlay' _]. rewrite Hlay in Hlay'.
  injection Hlay' as Edesc Elocs.
  destruct (Hex row col passidx destidx 4 Hv1 ltac:(lia)) as (o & Hm & Hg & Hdec).
  rewrite <- Edesc, <- Elocs, M1 in Hm. injection Hm as <-.
  unfold entry_of in Hg. rewrite Hr1, Hc1, Hp1, Hw1, Hd1 in Hg.
  rewrite Hr1, Hc1, Hp1 in Hdec.
  destruct (Hex row col nL destidx 5 Hv2 ltac:(lia)) as (o' & Hm' & Hg' & Hdec').
  rewrite <- Edesc, <- Elocs, M2 in Hm'. injection Hm' as <-.
  unfold entry_of in Hg'. rewrite Hr2, Hc2 in Hg'. rewrite Hr2, Hc2 in Hdec'.
  exists env. split; [assumption|]. split; [assumption|]. split; [assumption|]. split.
  - intros E. rewrite E in Hpl.
    (* the passenger stays in the taxi *)
    rewrite (move_dropoff nL desc locs row col nL destidx (row, col)
               (getitem_Ok _ _ _ (proj1 Hd) Hpl)) in M2.
    replace (loc_eqb (row, col) (row, col)) with true in M2
      by (symmetry; now apply loc_eqb_eq).
    rewrite Z.eqb_refl in M2. cbn [andb] in M2. injection M2 as <-.
    exact Hg'.
  - intros Hne. destruct (Hother Hne) as (Hp2 & Hw2 & Hd2).
    rewrite Hp2, Hw2, Hd2 in Hg'. rewrite Hp2 in Hdec'. auto.
Qed.

Lemma pickup_then_dropoff_witness :
  (2 = 2 \/ 2 = 4) /\
  layout 2 = Some ([ "+---------+"; "|A: | : : |"; "| : : : : |"; "| : : : : |";
                     "| | : | : |"; "| | : |B: |"; "+---------+" ]%string,
                   [(0,0); (4,3)]) /\
  0 <= 1 /\ [(0,0); (4,3)] !! Z.to_nat 1 = Some (4, 3) /\ 0 <= 0 <= 2 - 1 /\
  exists env,
    init 2 = Ok env /\
    table_get (env_P env) (encode 2 4 3 1 0) 4
    = Some [(1%Q, encode 2 4 3 2 0, -1, false)] /\
    decode 2 (encode 2 4 3 2 0) = Ok (4, 3, 2, 0) /\
    (1 = 0 ->
     table_get (env_P env) (encode 2 4 3 2 0) 5
     = Some [(1%Q, encode 2 4 3 2 0, 20, true)]) /\
    (1 <> 0 ->
     table_get (env_P env) (encode 2 4 3 2 0) 5
     = Some [(1%Q, encode 2 4 3 1 0, -1, false)] /\
     decode 2 (encode 2 4 3 1 0) = Ok (4, 3, 1, 0)).
Proof.
  assert (H0 : 2 = 2 \/ 2 = 4) by (left; reflexivity).
  assert (H1 : layout 2 = Some ([ "+---------+"; "|A: | : : |"; "| : : : : |";
                                  "| : : : : |"; "| | : | : |"; "| | : |B: |";
                                  "+---------+" ]%string, [(0,0); (4,3)]))
    by reflexivity.
  assert (H2 : 0 <= 1) by lia.
  assert (H3 : [(0,0); (4,3)] !! Z.to_nat 1 = Some (4, 3)) by reflexivity.
  assert (H4 : 0 <= 0 <= 2 - 1) by lia.
  split; [exact H0|]. split; [exact H1|]. split; [exact H2|]. split; [exact H3|].
  split; [exact H4|].
  exact (pickup_then_dropoff 2 _ _ 4 3 1 0 H0 H1 H2 H3 H4).
Defined.

(** ** Rendering *)

Lemma getitem_nonneg {A} (l : list A) i :
  0 <= i ->
  getitem l i = match l !! Z.to_nat i with Some x => Ok x | None => Raise IndexError end.
Proof.
  intros Hi. unfold getitem, py_index.
  destruct (Z.ltb_spec i (Z.of_nat (length l))) as [Hlt|Hge].
  - replace (0 <=? i) with true by (symmetry; now apply Z.leb_le). reflexivity.
  - rewrite andb_false_r.
    replace (i <? 0) with false by (symmetry; apply Z.ltb_ge; lia).
    rewrite andb_false_r. rewrite lookup_ge_None_2 by lia. reflexivity.
Qed.

Lemma cell_get_nonneg out r c :
  0 <= r -> 0 <= c ->
  cell_get out r c
  = match grid_lookup out (Z.to_nat r) (Z.to_nat c) with
    | Some x => Ok x
    | None => Raise IndexError
    end.
Proof.
  intros Hr Hc. unfold cell_get, grid_lookup. rewrite (getitem_nonneg out r Hr).
  destruct (out !! Z.to_nat r) as [line|]; [|reflexivity].
  apply (getitem_nonneg line c Hc).
Qed.

Lemma setitem_nonneg {A} (l : list A) i v l' :
  0 <= i -> setitem l i v = Ok l' -> l' = <[Z.to_nat i := v]> l.
Proof.
  intros Hi. unfold setitem, py_index.
  destruct ((0 <=? i) && (i <? Z.of_nat (length l))).
  - intros [= <-]. reflexivity.
  - replace (i <? 0) with false by (symmetry; apply Z.ltb_ge; lia).
    rewrite andb_false_r. discriminate.
Qed.

Lemma cell_set_nonneg out r c v out' :
  0 <= r -> 0 <= c -> cell_set out r c v = Ok out' ->
  exists line,
    out !! Z.to_nat r = Some line /\
    out' = <[Z.to_nat r := <[Z.to_nat c := v]> line]> out.
Proof.
  intros Hr Hc H. unfold cell_set in H.
  apply bind_Ok in H as (line & Hline & H).
  apply bind_Ok in H as (line' & Hline' & H).
  rewrite (getitem_nonneg out r Hr) in Hline.
  destruct (out !! Z.to_nat r) as [x|]; [|discriminate Hline].
  injection Hline as ->. exists line. split; [reflexivity|].
  rewrite (setitem_nonneg _ _ _ _ Hc Hline') in H.
  apply (setitem_nonneg _ _ _ _ Hr H).
Qed.

(** Writing one cell leaves every other cell as it was. *)
Lemma grid_lookup_set_other out r c v line r' c' :
  out !! r = Some line -> (r', c') <> (r, c) ->
  grid_lookup (<[r := <[c := v]> line]> out) r' c' = grid_lookup out r' c'.
Proof.
  intros Hline Hne. unfold grid_lookup.
  destruct (decide (r' = r)) as [->|Hr].
  - rewrite list_lookup_insert_eq by (eapply lookup_lt_Some; eassumption).
    rewrite Hline. simpl. apply list_lookup_insert_ne. congruence.
  - rewrite list_lookup_insert_ne by congruence. reflexivity.
Qed.

Lemma cell_set_frame out r c v out' r' c' :
  0 <= r -> 0 <= c -> 0 <= r' -> 0 <= c' ->
  cell_set out r c v = Ok out' -> (r', c') <> (r, c) ->
  cell_get out' r' c' = cell_get out r' c'.
Proof.
  intros Hr Hc Hr' Hc' Hset Hne.
  destruct (cell_set_nonneg _ _ _ _ _ Hr Hc Hset) as (line & Hline & ->).
  rewrite !cell_get_nonneg by assumption.
  rewrite (grid_lookup_set_other out _ _ v line _ _ Hline); [reflexivity|].
  intros [= E1 E2]. apply Hne. f_equal; apply Z2Nat.inj; assumption.
Qed.

Lemma paint_ok_supported colorize nL desc locs :
  layout nL = Some (desc, locs) -> paint_ok colorize nL desc locs = true.
Proof. intros H. each_layout H; vm_compute; reflexivity. Qed.

Lemma paint_Ok colorize nL desc locs s :
  layout nL = Some (desc, locs) -> 0 <= s < 125 * nL ->
  exists out, paint colorize nL desc locs s = Ok out.
Proof.
  intros Hlay Hs. pose proof (paint_ok_supported colorize _ _ _ Hlay) as Hok.
  pose proof (forallb_range _ _ Hok s Hs) as H. cbv beta in H.
  destruct (paint colorize nL desc locs s) as [out|]; [eauto|discriminate H].
Qed.

Lemma append_nl_nonempty (x : string) : (x ++ nl)%string <> ""%string.
Proof. destruct x; discriminate. Qed.

(** X11: for a supported location count, [render] writes to a fresh buffer
    in mode 'ansi' and to the standard output otherwise.  On a state index
    outside [0, 125 * L) it writes nothing and fails the assertion of
    [decode].  On an index inside, it returns (the stream unless the mode
    is 'human') whenever the last action is unset or one of -6 .. 5, and
    otherwise throws an index error after the grid has been written. *)
Theorem render_outcome colorize nL mode s lastaction :
  supported nL ->
  exists desc locs,
    layout nL = Some (desc, locs) /\
    outfile (render colorize nL desc locs mode s lastaction)
    = (if String.eqb mode "ansi" then StringIO else Stdout) /\
    (~ 0 <= s < 125 * nL ->
     written (render colorize nL desc locs mode s lastaction) = ""%string /\
     returned (render colorize nL desc locs mode s lastaction) = Raise AssertionError) /\
    (0 <= s < 125 * nL ->
     (lastaction = None \/ exists a, lastaction = Some a /\ -6 <= a <= 5) ->
     returned (render colorize nL desc locs mode s lastaction)
     = Ok (if String.eqb mode "human" then None
           else Some (if String.eqb mode "ansi" then StringIO else Stdout))) /\
    (0 <= s < 125 * nL ->
     forall a, lastaction = Some a -> ~ -6 <= a <= 5 ->
     returned (render colorize nL desc locs mode s lastaction) = Raise IndexError /\
     written (render colorize nL desc locs mode s lastaction) <> ""%string).
Proof.
  intros HL.
  destruct (proj2 (layout_supported nL) HL) as [[desc locs] Hlay].
  assert (HnL : 0 < nL) by (apply supported_cases in HL; lia).
  exists desc, locs. split; [assumption|]. split; [|split; [|split]].
  - unfold render. destruct (paint _ _ _ _ s) as [out|e]; [|reflexivity].
    destruct lastaction as [a|]; [|reflexivity].
    destruct (getitem action_names a) as [name|e]; reflexivity.
  - intros Hout.
    assert (Hdec : decode nL s = Raise AssertionError).
    { destruct (decode nL s) as [t|e] eqn:E.
      - exfalso. apply Hout, (decode_Ok_iff nL s HnL). eauto.
      - revert E. unfold decode. destruct (Z.eqb_spec nL 0); [lia|].
        destruct (_ && _); [discriminate|]. intros [= <-]. reflexivity. }
    unfold render, paint. rewrite Hdec. split; reflexivity.
  - intros Hs Hla. destruct (paint_Ok colorize _ _ _ s Hlay Hs) as [out Hout].
    unfold render. rewrite Hout.
    destruct Hla as [->|(a & -> & Ha)]; [reflexivity|].
    assert (Hname : exists name, getitem action_names a = Ok name).
    { assert (Hc : a = -6 \/ a = -5 \/ a = -4 \/ a = -3 \/ a = -2 \/ a = -1 \/
                   a = 0 \/ a = 1 \/ a = 2 \/ a = 3 \/ a = 4 \/ a = 5) by lia.
      repeat (destruct Hc as [->|Hc]; [eexists; reflexivity|]).
      subst a. eexists; reflexivity. }
    destruct Hname as [name ->]. reflexivity.
  - intros Hs a -> Ha. destruct (paint_Ok colorize _ _ _ s Hlay Hs) as [out Hout].
    unfold render. rewrite Hout.
    assert (Hname : getitem action_names a = Raise IndexError).
    { unfold getitem, py_index. change (Z.of_nat (length action_names)) with 6.
      destruct (Z.leb_spec 0 a).
      - replace (a <? 6) with false by (symmetry; apply Z.ltb_ge; lia).
        replace (a <? 0) with false by (symmetry; apply Z.ltb_ge; lia).
        rewrite !andb_false_r. reflexivity.
      - cbn [andb].
        replace (- (6) <=? a) with false by (symmetry; apply Z.leb_gt; lia).
        reflexivity. }
    rewrite Hname. cbn [returned written]. split; [reflexivity|].
    apply append_nl_nonempty.
Qed.

Lemma render_outcome_witness :
  supported 4 /\
  exists desc locs,
    layout 4 = Some (desc, locs) /\
    outfile (render (fun x _ _ _ => x) 4 desc locs "ansi" 7 (Some 2))
    = (if String.eqb "ansi" "ansi" then StringIO else Stdout) /\
    (~ 0 <= 7 < 125 * 4 ->
     written (render (fun x _ _ _ => x) 4 desc locs "ansi" 7 (Some 2)) = ""%string /\
     returned (render (fun x _ _ _ => x) 4 desc locs "ansi" 7 (Some 2))
     = Raise AssertionError) /\
    (0 <= 7 < 125 * 4 ->
     (Some 2 = None \/ exists a, Some 2 = Some a /\ -6 <= a <= 5) ->
     returned (render (fun x _ _ _ => x) 4 desc locs "ansi" 7 (Some 2))
     = Ok (if String.eqb "ansi" "human" then None
           else Some (if String.eqb "ansi" "ansi" then StringIO else Stdout))) /\
    (0 <= 7 < 125 * 4 ->
     forall a, Some 2 = Some a -> ~ -6 <= a <= 5 ->
     returned (render (fun x _ _ _ => x) 4 desc locs "ansi" 7 (Some 2))
     = Raise IndexError /\
     written (render (fun x _ _ _ => x) 4 desc locs "ansi" 7 (Some 2)) <> ""%string).
Proof.
  assert (H1 : supported 4) by (apply supported_cases; lia).
  split; [exact H1|].
  exact (render_outcome (fun x _ _ _ => x) 4 "ansi" 7 (Some 2) H1).
Defined.

(** X12: for a supported location count and a state index that [decode]
    accepts, [render] paints at most three cells of the map: the taxi's,
    the waiting passenger's location and the destination.  Every other
    cell of the grid it writes is the character of the map. *)
Theorem paint_keeps_other_cells colorize nL s r c :
  supported nL -> 0 <= s < 125 * nL -> 0 <= r -> 0 <= c ->
  exists desc locs taxirow taxicol passidx destidx out,
    layout nL = Some (desc, locs) /\
    decode nL s = Ok (taxirow, taxicol, passidx, destidx) /\
    paint colorize nL desc locs s = Ok out /\
    ((r, c) <> (1 + taxirow, 2 * taxicol + 1) ->
     (forall pi pj, passidx < nL -> locs !! Z.to_nat passidx = Some (pi, pj) ->
                    (r, c) <> (1 + pi, 2 * pj + 1)) ->
     (forall di dj, locs !! Z.to_nat destidx = Some (di, dj) ->
                    (r, c) <> (1 + di, 2 * dj + 1)) ->
     cell_get out r c = cell_get (cells desc) r c).
Proof.
  intros HL Hs Hr Hc.
  destruct (proj2 (layout_supported nL) HL) as [[desc locs] Hlay].
  assert (HnL : 0 < nL) by (apply supported_cases in HL; lia).
  destruct (proj2 (decode_Ok_iff nL s HnL) Hs) as [[[[tr tc] p] d] Hdec].
  destruct (decode_Ok_range nL s tr tc p d HnL Hdec) as (Htr & Htc & Hp & Hd & _).
  destruct (paint_Ok colorize _ _ _ s Hlay Hs) as [out Hout].
  exists desc, locs, tr, tc, p, d, out. do 3 (split; [assumption|]).
  intros Htaxi Hpass Hdest.
  (* the locations are cells of the grid *)
  pose proof (layout_ok_supported _ _ _ Hlay) as Hok. unfold layout_ok in Hok.
  apply andb_true_iff in Hok as [[_ Hgrid]%andb_true_iff _].
  assert (Hin : forall k x y, 0 <= k -> getitem locs k = Ok (x, y) ->
                  locs !! Z.to_nat k = Some (x, y) /\ 0 <= x /\ 0 <= y).
  { intros k x y Hk Hget. rewrite (getitem_nonneg locs k Hk) in Hget.
    destruct (locs !! Z.to_nat k) as [l|] eqn:El; [|discriminate Hget].
    injection Hget as ->. split; [reflexivity|].
    rewrite forallb_forall in Hgrid.
    assert (Hl : In (x, y) locs) by (apply list_elem_of_In, list_elem_of_lookup; eauto).
    specialize (Hgrid _ Hl). cbv beta in Hgrid. cbn [fst snd] in Hgrid.
    rewrite !andb_true_iff, !Z.leb_le in Hgrid. lia. }
  unfold paint in Hout. rewrite Hdec in Hout. cbn [mbind result_bind] in Hout.
  apply bind_Ok in Hout as (out2 & Hout2 & Hout).
  apply bind_Ok in Hout as ([di dj] & Hgd & Hout).
  apply bind_Ok in Hout as (z & _ & Hout).
  destruct (Hin d di dj (proj1 Hd) Hgd) as (Hld & Hdi & Hdj).
  assert (Hdi' : 0 <= 1 + di) by lia. assert (Hdj' : 0 <= 2 * dj + 1) by lia.
  rewrite (cell_set_frame _ _ _ _ _ r c Hdi' Hdj' Hr Hc Hout (Hdest di dj Hld)).
  assert (Htr' : 0 <= 1 + tr) by lia. assert (Htc' : 0 <= 2 * tc + 1) by lia.
  destruct (Z.ltb_spec p nL) as [Hlt|Hge].
  - apply bind_Ok in Hout2 as (x & _ & Hout2).
    apply bind_Ok in Hout2 as (out1 & Hout1 & Hout2).
    apply bind_Ok in Hout2 as ([pi pj] & Hgp & Hout2).
    apply bind_Ok in Hout2 as (y & _ & Hout2).
    destruct (Hin p pi pj (proj1 Hp) Hgp) as (Hlp & Hpi & Hpj).
    assert (Hpi' : 0 <= 1 + pi) by lia. assert (Hpj' : 0 <= 2 * pj + 1) by lia.
    rewrite (cell_set_frame _ _ _ _ _ r c Hpi' Hpj' Hr Hc Hout2 (Hpass pi pj Hlt Hlp)).
    apply (cell_set_frame _ _ _ _ _ r c Htr' Htc' Hr Hc Hout1 Htaxi).
  - apply bind_Ok in Hout2 as (x & _ & Hout2).
    apply (cell_set_frame _ _ _ _ _ r c Htr' Htc' Hr Hc Hout2 Htaxi).
Qed.

Lemma paint_keeps_other_cells_witness :
  supported 4 /\ 0 <= 7 < 125 * 4 /\ 0 <= 3 /\ 0 <= 5 /\
  exists desc locs taxirow taxicol passidx destidx out,
    layout 4 = Some (desc, locs) /\
    decode 4 7 = Ok (taxirow, taxicol, passidx, destidx) /\
    paint (fun x _ _ _ => x) 4 desc locs 7 = Ok out /\
    ((3, 5) <> (1 + taxirow, 2 * taxicol + 1) ->
     (forall pi pj, passidx < 4 -> locs !! Z.to_nat passidx = Some (pi, pj) ->
                    (3, 5) <> (1 + pi, 2 * pj + 1)) ->
     (forall di dj, locs !! Z.to_nat destidx = Some (di, dj) ->
                    (3, 5) <> (1 + di, 2 * dj + 1)) ->
     cell_get out 3 5 = cell_get (cells desc) 3 5).
Proof.
  assert (H1 : supported 4) by (apply supported_cases; lia).
  assert (H2 : 0 <= 7 < 125 * 4) by lia.
  assert (H3 : 0 <= 3) by lia.
  assert (H4 : 0 <= 5) by lia.
  split; [exact H1|]. split; [exact H2|]. split; [exact H3|]. split; [exact H4|].
  exact (paint_keeps_other_cells (fun x _ _ _ => x) 4 7 3 5 H1 H2 H3 H4).
Defined.
